(** * Pokemon image pipeline: fetch phase and transform phase

    A shallow embedding of [pokemon_optimizado2.py] (with the parts of
    [pokemon.py] that differ), and the properties of its two phases; then
    the first parallel version, [pokemon_optimizado1.py], set against the
    sequential program, and the chunked search of [test.py].

    The program talks to three collaborators that are not part of it: the
    HTTP client ([requests]), the image library ([PIL]) and the operating
    system (files, clock).  They are kept abstract: an [Env] record gives the
    answer of the outside world to each call, a [PIL] class gives the image
    operations, and a [World] value is threaded through the code as the
    mutable state (files, calls made so far, clock readings taken).  Python
    exceptions are values of type [exn]; a computation returns an [Outcome]
    together with the world it leaves behind. *)

From Stdlib Require Import ZArith QArith Ascii String DecimalString DecimalN.
From stdpp Require Import base tactics option list sorting gmap strings.

Local Open Scope string_scope.
Local Open Scope Z_scope.

(** ** Python values used by the program *)

Definition bytes := list Byte.byte.

(** The exception classes the program meets.  The first four are
    [requests.exceptions.RequestException] and its subclasses; all of the
    classes listed are subclasses of [Exception]. *)
Inductive exn_class :=
  | RequestException | HTTPError | ConnectionError | Timeout
  | OSError | FileNotFoundError | UnidentifiedImageError
  | ValueError | ZeroDivisionError | IndexError | MemoryError.

Record exn := Exn { exn_cls : exn_class; exn_msg : string }.

(** [isinstance(e, requests.exceptions.RequestException)] *)
Definition is_RequestException (e : exn) : bool :=
  match exn_cls e with
  | RequestException | HTTPError | ConnectionError | Timeout => true
  | _ => false
  end.

(** [str(e)] *)
Definition str (e : exn) : string := exn_msg e.

Inductive Outcome (A : Type) :=
  | Ok (a : A)
  | Raise (e : exn).
Arguments Ok {A} a.
Arguments Raise {A} e.

(** ** Strings: [f'{i:03d}'], [str.endswith], [os.path.join] *)

Definition decimal (n : Z) : string :=
  NilZero.string_of_uint (N.to_uint (Z.to_N n)).

Fixpoint zeros (k : nat) : string :=
  match k with
  | O => ""
  | S k' => String "0" (zeros k')
  end.

Definition zfill (width : nat) (s : string) : string :=
  zeros (width - String.length s) +:+ s.

(** [f'{i:03d}']: the sign counts in the width of three. *)
Definition format_03d (i : Z) : string :=
  if i <? 0 then "-" +:+ zfill 2 (decimal (- i)) else zfill 3 (decimal i).

(** The number that a string of digits writes, leading zeros allowed. *)
Definition digits_value (s : string) : N :=
  match NilEmpty.uint_of_string s with
  | Some d => N.of_uint d
  | None => 0%N
  end.

(** [s.endswith(suffix)] *)
Definition endswith (s suffix : string) : bool :=
  let n := String.length s in
  let k := String.length suffix in
  if (k <=? n)%nat then String.eqb (String.substring (n - k) k s) suffix else false.

(** A path is kept as the pair of the directory and the file name that
    [os.path.join] receives; the names handled by the program contain no
    separator. *)
Abbreviation path := (string * string)%type.
Definition os_path_join (dir_name file_name : string) : path := (dir_name, file_name).

(** [range(lo, hi)] *)
Definition range (lo hi : Z) : list Z :=
  map (fun k : nat => lo + Z.of_nat k) (seq 0 (Z.to_nat (hi - lo))).

(** ** The outside world *)

(** What the program does to the network and to the clock, oldest first. *)
Inductive event :=
  | EvGet (url : string) (timeout : option Z)
  | EvSleep (secs : Z).

(** The mutable state: the files (content by path), the number of GET
    requests sent to each URL so far, the number of clock readings taken so
    far, and the events so far. *)
Record World := mkWorld {
  fs : gmap path bytes;
  calls : gmap string nat;
  ticks : nat;
  log : list event
}.

Record Response := mkResponse { status_code : Z; content : bytes }.

Inductive fs_op :=
  | OpMakedirs (d : string)
  | OpListdir (d : string)
  | OpRead (p : path)
  | OpWrite (p : path).

(** The answers of the outside world.  [http url k] is what the [k]-th GET
    request to [url] gives (numbered from 0): a response or an exception.
    [fs_error op] is the error the operating system raises on a file
    operation, if any; a write that raises leaves the files as they were
    (the write is all or nothing).  [clock k] is the [k]-th reading of
    [time.time()].  [choices] drives the pool: which of the running tasks
    finishes next. *)
Record Env := mkEnv {
  http : string -> nat -> Outcome Response;
  fs_error : fs_op -> option exn;
  clock : nat -> Q;
  choices : list nat
}.

(** ** Computations: state and exceptions *)

Definition M (A : Type) : Type := World -> Outcome A * World.

Definition ret {A} (a : A) : M A := fun w => (Ok a, w).

Definition raise {A} (e : exn) : M A := fun w => (Raise e, w).

Definition bind {A B} (m : M A) (k : A -> M B) : M B :=
  fun w =>
    match m w with
    | (Ok a, w') => k a w'
    | (Raise e, w') => (Raise e, w')
    end.

(** stdpp's monad notations: [x ← m; k] and [m;; k]. *)
Global Instance M_ret : MRet M := @ret.
Global Instance M_bind : MBind M := fun A B k m => bind m k.

(** [try: body except <class> as e: handler e]; [catches] is the class
    test of the [except] clause. *)
Definition try_except {A} (body : M A) (catches : exn -> bool) (handler : exn -> M A) : M A :=
  fun w =>
    match body w with
    | (Ok a, w') => (Ok a, w')
    | (Raise e, w') => if catches e then handler e w' else (Raise e, w')
    end.

(** [for x in xs: body x], where the body may [return] from the enclosing
    function: [Some r] is a return of [r], [None] goes on with the loop. *)
Fixpoint for_return {A R} (xs : list A) (body : A -> M (option R)) : M (option R) :=
  match xs with
  | [] => ret None
  | x :: xs' =>
      r ← body x;
      match r with
      | Some v => ret (Some v)
      | None => for_return xs' body
      end
  end.

Section Primitives.
Context (env : Env).

(** [requests.get(url, timeout=timeout)]; [None] is a call without a timeout. *)
Definition requests_get (url : string) (timeout : option Z) : M Response :=
  fun w =>
    let k := default 0%nat (calls w !! url) in
    (http env url k,
     mkWorld (fs w) (<[url := S k]> (calls w)) (ticks w) (log w ++ [EvGet url timeout])).

(** [response.raise_for_status()] *)
Definition raise_for_status (response : Response) : M unit :=
  if (400 <=? status_code response) && (status_code response <? 600)
  then raise (Exn HTTPError (decimal (status_code response) +:+ " Error"))
  else ret tt.

(** [with open(p, 'wb') as f: f.write(data)] *)
Definition write_file (p : path) (data : bytes) : M unit :=
  fun w =>
    match fs_error env (OpWrite p) with
    | Some e => (Raise e, w)
    | None => (Ok tt, mkWorld (<[p := data]> (fs w)) (calls w) (ticks w) (log w))
    end.

(** The bytes of the file at [p], as [Image.open] reads them. *)
Definition read_file (p : path) : M bytes :=
  fun w =>
    match fs_error env (OpRead p) with
    | Some e => (Raise e, w)
    | None =>
        match fs w !! p with
        | Some data => (Ok data, w)
        | None => (Raise (Exn FileNotFoundError "No such file or directory"), w)
        end
    end.

(** [time.sleep(secs)] *)
Definition time_sleep (secs : Z) : M unit :=
  fun w => (Ok tt, mkWorld (fs w) (calls w) (ticks w) (log w ++ [EvSleep secs])).

(** [time.time()] *)
Definition time_time : M Q :=
  fun w => (Ok (clock env (ticks w)), mkWorld (fs w) (calls w) (S (ticks w)) (log w)).

(** [os.makedirs(d, exist_ok=True)] *)
Definition os_makedirs (d : string) : M unit :=
  fun w =>
    match fs_error env (OpMakedirs d) with
    | Some e => (Raise e, w)
    | None => (Ok tt, w)
    end.

(** The names of the files of directory [d]. *)
Definition dir_names (d : string) (files : gmap path bytes) : list string :=
  (filter (fun p : path => p.1 = d) (map_to_list files).*1).*2.

(** [os.listdir(d)]; that the directory is missing or cannot be read is an
    error of the operating system, [fs_error env (OpListdir d)]. *)
Definition os_listdir (d : string) : M (list string) :=
  fun w =>
    match fs_error env (OpListdir d) with
    | Some e => (Raise e, w)
    | None => (Ok (dir_names d (fs w)), w)
    end.

(** [x / y] on numbers: [ZeroDivisionError] when [y] is zero. *)
Definition divide (x y : Q) : M Q :=
  if Qeq_bool y 0 then raise (Exn ZeroDivisionError "float division by zero")
  else ret (x / y)%Q.

End Primitives.

(** ** The bounded task pool *)

(** The program takes its pools from [concurrent.futures]
    ([ThreadPoolExecutor] for the fetch phase, [ProcessPoolExecutor] for the
    transform phase); their code is not part of the repository. *)
Section BoundedPool.
Context {T : Type}.

(** Modelled from the spec: the state of the bounded task pool of section
    4.2, whose implementation ([concurrent.futures]) is missing from the
    sources: the queue of the tasks not yet started, the tasks that are
    executing, and the tasks that have finished, in the order in which they
    finished. *)
Record pool := Pool { queue : list T; running : list T; finished : list T }.

(** Modelled from the spec: the scheduling of the bounded task pool of
    section 4.2, missing from the sources.  "Tasks are pulled from a fixed
    work queue by a fixed-size set of workers; a worker that finishes one
    task immediately pulls the next until the queue is exhausted."  One step
    of a pool of [c] workers: a free worker pulls the next task of the queue,
    or one of the executing tasks finishes. *)
Inductive pool_step (c : nat) : pool -> pool -> Prop :=
  | step_start t q r d :
      (length r < c)%nat ->
      pool_step c (Pool (t :: q) r d) (Pool q (r ++ [t]) d)
  | step_finish q r1 t r2 d :
      pool_step c (Pool q (r1 ++ t :: r2) d) (Pool q (r1 ++ r2) (d ++ [t])).

(** What is left to do: two steps for a queued task, one for a task that
    executes. *)
Definition pool_measure (p : pool) : nat :=
  (2 * length (queue p) + length (running p))%nat.

(** Modelled from the spec: a scheduler of the bounded task pool of section
    4.2, missing from the sources, that can be run.  Workers pull eagerly;
    when no worker is free (or the queue is empty) the next choice says which
    of the executing tasks finishes. *)
Definition start_next (c : nat) (p : pool) : option pool :=
  match queue p with
  | t :: q =>
      if decide (length (running p) < c)%nat
      then Some (Pool q (running p ++ [t]) (finished p))
      else None
  | [] => None
  end.

Definition finish_one (k : nat) (p : pool) : option pool :=
  match running p !! k with
  | Some t => Some (Pool (queue p) (delete k (running p)) (finished p ++ [t]))
  | None => None
  end.

Definition schedule_step (c : nat) (chs : list nat) (p : pool) : option (pool * list nat) :=
  match start_next c p with
  | Some p' => Some (p', chs)
  | None =>
      match finish_one (hd 0%nat chs mod length (running p)) p with
      | Some p' => Some (p', tl chs)
      | None => None
      end
  end.

Fixpoint run_pool (fuel c : nat) (chs : list nat) (p : pool) : pool :=
  match fuel with
  | O => p
  | S fuel' =>
      match schedule_step c chs p with
      | Some (p', chs') => run_pool fuel' c chs' p'
      | None => p
      end
  end.

(** [as_completed(futures)] after every task was submitted to a pool of
    [c] workers: the tasks in the order in which they finish. *)
Definition as_completed (c : nat) (chs : list nat) (tasks : list T) : list T :=
  finished (run_pool (2 * length tasks) c chs (Pool tasks [] [])).

End BoundedPool.
Arguments pool : clear implicits.

(** Running the submitted tasks: each one runs to its end and its outcome,
    a value or the exception it raised, is kept in its future; an exception
    does not leave the task here.  The tasks of one phase work on distinct
    files and URLs, so their effects are applied task by task, in the order
    of completion. *)
Fixpoint run_tasks {A B} (task : A -> M B) (order : list A) (w : World)
  : list (Outcome B) * World :=
  match order with
  | [] => ([], w)
  | a :: rest =>
      let (o, w') := task a w in
      let (os, w'') := run_tasks task rest w' in
      (o :: os, w'')
  end.

(** Modelled from the spec: the use the program makes of its pool, whose
    implementation is missing from the sources.
    [with Executor(max_workers=max_workers) as executor:] with every task
    submitted, then [as_completed]: the futures in completion order.  The
    constructor refuses a number of workers that is not positive. *)
Definition executor_futures {A B} (env : Env) (max_workers : Z)
    (task : A -> M B) (args : list A) : M (list (Outcome B)) :=
  if max_workers <=? 0
  then raise (Exn ValueError "max_workers must be greater than 0")
  else fun w =>
         let (os, w') :=
           run_tasks task (as_completed (Z.to_nat max_workers) (choices env) args) w in
         (Ok os, w').

(** ** Phase A: fetch ([pokemon_optimizado2.py]) *)

Definition MAX_CPU_WORKERS : Z := 8.
Definition IO_WORKERS : Z := 32.

Definition base_url : string :=
  "https://raw.githubusercontent.com/HybridShivam/Pokemon/master/assets/imagesHQ".

(** The value the function returns, [total_time], with the two counters its
    summary prints. *)
Record DownloadReport := mkDownloadReport {
  download_total_time : Q;
  successful_downloads : Z;
  failed_downloads : list string
}.

Section Fetch.
Context (env : Env).

Definition download_single_pokemon (args : Z * string * string * Z) : M (bool * string) :=
  let '(i, dir_name, base_url, retry_count) := args in
  let file_name := format_03d i +:+ ".png" in
  let url := base_url +:+ "/" +:+ file_name in
  r ← for_return (range 0 retry_count) (fun attempt =>
        try_except
          (response ← requests_get env url (Some 10);
           raise_for_status response;;
           let img_path := os_path_join dir_name file_name in
           write_file env img_path (content response);;
           mret (Some (true, file_name)))
          is_RequestException
          (fun e =>
             if attempt =? retry_count - 1
             then mret (Some (false, file_name))
             else time_sleep 1;; mret None));
  match r with
  | Some result => mret result
  | None => mret (false, file_name)
  end.

(** The loop over [as_completed(futures)]: [future.result()] gives the
    value of the task or raises the exception the task raised. *)
Fixpoint collect_downloads (futures : list (Outcome (bool * string)))
    (successful_downloads : Z) (failed_downloads : list string)
  : M (Z * list string) :=
  match futures with
  | [] => mret (successful_downloads, failed_downloads)
  | future :: rest =>
      match future with
      | Raise e => raise e
      | Ok (success, filename) =>
          if success : bool
          then collect_downloads rest (successful_downloads + 1) failed_downloads
          else collect_downloads rest successful_downloads (failed_downloads ++ [filename])
      end
  end.

Definition download_pokemon (n : Z) (dir_name : string) (max_workers : Z)
  : M DownloadReport :=
  os_makedirs env dir_name;;
  start_time ← time_time env;
  let download_args := map (fun i => (i, dir_name, base_url, 2)) (range 1 (n + 1)) in
  futures ← executor_futures env max_workers download_single_pokemon download_args;
  counters ← collect_downloads futures 0 [];
  now ← time_time env;
  let total_time := (now - start_time)%Q in
  divide (inject_Z n) total_time;;
  mret (mkDownloadReport total_time counters.1 counters.2).

End Fetch.

(** ** Phase B: transform ([pokemon_optimizado2.py]) *)

Inductive ImageFilter :=
  | GaussianBlur (radius : Z)
  | EDGE_ENHANCE
  | EDGE_ENHANCE_MORE.

Inductive Resampling := NEAREST | BILINEAR | BICUBIC | LANCZOS.

(** The image library.  Every operation is a function of its arguments and
    may raise.  [Image_encode name quality optimize img] is the content that
    [img.save(path, quality=quality, optimize=optimize)] writes, in the
    format that the file name selects. *)
Class PIL := {
  Image : Type;
  Image_open : bytes -> Outcome Image;
  Image_convert : string -> Image -> Outcome Image;
  Image_filter : ImageFilter -> Image -> Outcome Image;
  ImageEnhance_Contrast : Q -> Image -> Outcome Image;
  ImageOps_invert : Image -> Outcome Image;
  Image_size : Image -> Z * Z;
  Image_resize : Z * Z -> Resampling -> Image -> Outcome Image;
  Image_encode : string -> Z -> bool -> Image -> Outcome bytes
}.

(** A pure call that may raise. *)
Definition lift {A} (o : Outcome A) : M A := fun w => (o, w).

(** The result tuples of the transform tasks have two shapes, so a tuple is
    kept as the list of its components. *)
Inductive pyval :=
  | PyBool (b : bool)
  | PyStr (s : string).

(** [t[k]] *)
Definition tuple_index (t : list pyval) (k : nat) : M pyval :=
  match t !! k with
  | Some v => mret v
  | None => raise (Exn IndexError "tuple index out of range")
  end.

(** The truth value of [v] in [if v:] *)
Definition truthy (v : pyval) : bool :=
  match v with
  | PyBool b => b
  | PyStr s => negb (String.eqb s "")
  end.

(** [sorted(names)] on strings: the order of [String.leb], character by
    character. *)
Definition sorted (names : list string) : list string := merge_sort String.le names.

(** The value the function returns, [total_time], with [total] and the two
    counters its summary prints. *)
Record ProcessReport := mkProcessReport {
  process_total_time : Q;
  total : nat;
  successful_processing : Z;
  failed_processing : list (pyval * pyval)
}.

Section Transform.
Context (env : Env) `{PIL}.

(** [img.save(p, quality=quality, optimize=optimize)] *)
Definition Image_save (img : Image) (p : path) (quality : Z) (optimize : bool) : M unit :=
  data ← lift (Image_encode p.2 quality optimize img);
  write_file env p data.

Definition process_single_image (args : string * string * string) : M (list pyval) :=
  let '(image, dir_origin, dir_name) := args in
  try_except
    (let path_origin := os_path_join dir_origin image in
     data ← read_file env path_origin;
     img ← lift (Image_open data);
     img ← lift (Image_convert "RGB" img);
     img ← lift (Image_filter (GaussianBlur 10) img);
     img ← lift (ImageEnhance_Contrast (3 # 2) img);
     img ← lift (Image_filter EDGE_ENHANCE_MORE img);
     img_inv ← lift (ImageOps_invert img);
     img_inv ← lift (Image_filter (GaussianBlur 5) img_inv);
     let '(width, height) := Image_size img_inv in
     img_inv ← lift (Image_resize (width * 2, height * 2) LANCZOS img_inv);
     img_inv ← lift (Image_resize (width, height) LANCZOS img_inv);
     let saving_path := os_path_join dir_name image in
     Image_save img_inv saving_path 95 true;;
     mret [PyBool true; PyStr image])
    (fun _ => true)
    (fun e => mret [PyBool false; PyStr image; PyStr (str e)]).

(** The loop over [as_completed(futures)] of [process_pokemon]. *)
Fixpoint collect_processed (futures : list (Outcome (list pyval)))
    (successful_processing : Z) (failed_processing : list (pyval * pyval))
  : M (Z * list (pyval * pyval)) :=
  match futures with
  | [] => mret (successful_processing, failed_processing)
  | future :: rest =>
      result ← lift future;
      success ← tuple_index result 0;
      if truthy success
      then collect_processed rest (successful_processing + 1) failed_processing
      else
        r1 ← tuple_index result 1;
        r2 ← tuple_index result 2;
        collect_processed rest successful_processing (failed_processing ++ [(r1, r2)])
  end.

(** [sorted([f for f in os.listdir(dir_origin) if f.endswith('.png')])] *)
Definition list_images (dir_origin : string) : M (list string) :=
  names ← os_listdir env dir_origin;
  mret (sorted (filter (fun f => endswith f ".png" = true) names)).

Definition process_pokemon (dir_origin dir_name : string) (max_workers : Z)
  : M ProcessReport :=
  os_makedirs env dir_name;;
  images ← list_images dir_origin;
  let total := length images in
  start_time ← time_time env;
  let process_args := map (fun image => (image, dir_origin, dir_name)) images in
  futures ← executor_futures env max_workers process_single_image process_args;
  counters ← collect_processed futures 0 [];
  now ← time_time env;
  let total_time := (now - start_time)%Q in
  divide (inject_Z (Z.of_nat total)) total_time;;
  mret (mkProcessReport total_time total counters.1 counters.2).

End Transform.

(** ** The sequential program ([pokemon.py]) *)

(** [for x in xs: body x] *)
Fixpoint for_each {A} (xs : list A) (body : A -> M unit) : M unit :=
  match xs with
  | [] => mret tt
  | x :: xs' => body x;; for_each xs' body
  end.

Module Baseline.
Section Program.
Context (env : Env) `{PIL}.

(** The function returns [total_time]; it keeps no counter. *)
Definition download_pokemon (n : Z) (dir_name : string) : M Q :=
  os_makedirs env dir_name;;
  start_time ← time_time env;
  for_each (range 1 (n + 1)) (fun i =>
    let file_name := format_03d i +:+ ".png" in
    let url := base_url +:+ "/" +:+ file_name in
    try_except
      (response ← requests_get env url None;
       raise_for_status response;;
       let img_path := os_path_join dir_name file_name in
       write_file env img_path (content response))
      is_RequestException
      (fun e => mret tt));;
  now ← time_time env;
  let total_time := (now - start_time)%Q in
  divide total_time (inject_Z n);;
  mret total_time.

(** The body of the loop of [process_pokemon]. *)
Definition process_image (image dir_origin dir_name : string) : M unit :=
  try_except
    (let path_origin := os_path_join dir_origin image in
     data ← read_file env path_origin;
     img ← lift (Image_open data);
     img ← lift (Image_convert "RGB" img);
     img ← lift (Image_filter (GaussianBlur 10) img);
     img ← lift (ImageEnhance_Contrast (3 # 2) img);
     img ← lift (Image_filter EDGE_ENHANCE_MORE img);
     img_inv ← lift (ImageOps_invert img);
     img_inv ← lift (Image_filter (GaussianBlur 5) img_inv);
     let '(width, height) := Image_size img_inv in
     img_inv ← lift (Image_resize (width * 2, height * 2) LANCZOS img_inv);
     img_inv ← lift (Image_resize (width, height) LANCZOS img_inv);
     let saving_path := os_path_join dir_name image in
     Image_save env img_inv saving_path 95 false)
    (fun _ => true)
    (fun e => mret tt).

Definition process_pokemon (dir_origin dir_name : string) : M Q :=
  os_makedirs env dir_name;;
  images ← list_images env dir_origin;
  let total := length images in
  start_time ← time_time env;
  for_each images (fun image => process_image image dir_origin dir_name);;
  now ← time_time env;
  let total_time := (now - start_time)%Q in
  divide total_time (inject_Z (Z.of_nat total));;
  mret total_time.

End Program.
End Baseline.

(** ** Reading the fetch task *)

Section FetchTaskReading.
Context (env : Env).

(** The body of the [for] loop of [download_single_pokemon]. *)
Definition attempt_body (url dir_name file_name : string) (retry_count attempt : Z)
  : M (option (bool * string)) :=
  try_except
    (response ← requests_get env url (Some 10);
     raise_for_status response;;
     let img_path := os_path_join dir_name file_name in
     write_file env img_path (content response);;
     mret (Some (true, file_name)))
    is_RequestException
    (fun e =>
       if attempt =? retry_count - 1
       then mret (Some (false, file_name))
       else time_sleep 1;; mret None).

(** What one attempt comes to: the data to keep, or the exception of the
    request, of the status check or of the write. *)
Definition attempt_outcome (o : Outcome Response) (write_error : option exn) : Outcome bytes :=
  match o with
  | Raise e => Raise e
  | Ok response =>
      if (400 <=? status_code response) && (status_code response <? 600)
      then Raise (Exn HTTPError (decimal (status_code response) +:+ " Error"))
      else match write_error with
           | Some e => Raise e
           | None => Ok (content response)
           end
  end.

(** The number of requests sent to [url] so far. *)
Definition sent (url : string) (w : World) : nat := default 0%nat (calls w !! url).

(** The [k]-th attempt on [url] for the file at [p], counted from the
    requests already sent in [w]. *)
Definition attempt_at (url : string) (p : path) (w : World) (k : nat) : Outcome bytes :=
  attempt_outcome (http env url (sent url w + k)) (fs_error env (OpWrite p)).

(** An attempt fails, and is tried again while the budget lasts, when it
    raises an exception of the request classes. *)
Definition attempt_fails (o : Outcome bytes) : Prop :=
  match o with
  | Raise e => is_RequestException e = true
  | Ok _ => False
  end.

(** The world after one more request to [url], after a pause, after a
    write. *)
Definition after_get (url : string) (w : World) : World :=
  mkWorld (fs w) (<[url := S (sent url w)]> (calls w)) (ticks w) (log w ++ [EvGet url (Some 10)]).

Definition after_sleep (w : World) : World :=
  mkWorld (fs w) (calls w) (ticks w) (log w ++ [EvSleep 1]).

Definition after_write (p : path) (data : bytes) (w : World) : World :=
  mkWorld (<[p := data]> (fs w)) (calls w) (ticks w) (log w).

(** [k] requests to [url] with a pause of one second between two of them. *)
Fixpoint retry_trace (url : string) (k : nat) : list event :=
  match k with
  | O => []
  | S O => [EvGet url (Some 10)]
  | S k' => EvGet url (Some 10) :: EvSleep 1 :: retry_trace url k'
  end.

(** The world after [j] failed attempts, each followed by its pause. *)
Definition after_failures (url : string) (j : nat) (w : World) : World :=
  Nat.iter j (fun w' => after_sleep (after_get url w')) w.

(** The world after [k] attempts on [url], when none of them wrote. *)
Definition after_attempts (url : string) (k : nat) (w : World) : World :=
  mkWorld (fs w) (<[url := (sent url w + k)%nat]> (calls w)) (ticks w)
    (log w ++ retry_trace url k).

(** An outside world in which a request raises nothing but exceptions of
    the request classes, and no write to [dir_name] raises. *)
Definition requests_only (dir_name : string) : Prop :=
  (forall url k e, http env url k = Raise e -> is_RequestException e = true)
  /\ (forall file_name, fs_error env (OpWrite (dir_name, file_name)) = None).


End FetchTaskReading.

(** ** Reading the transform task *)

(** Pure calls that may raise compose like computations do. *)
Global Instance Outcome_ret : MRet Outcome := @Ok.
Global Instance Outcome_bind : MBind Outcome :=
  fun A B k o => match o with Ok a => k a | Raise e => Raise e end.
Global Instance Outcome_fmap : FMap Outcome :=
  fun A B f o => match o with Ok a => Ok (f a) | Raise e => Raise e end.

(** The steps of the chain, as the specification names them. *)
Inductive transform_step :=
  | ConvertRGB
  | Blur (radius : Z)
  | EnhanceContrast (factor : Q)
  | EdgeEnhance
  | Invert
  | Upscale (factor : Z)
  | DownscaleToOriginal.

(** "colorspace-normalize, blur, contrast-enhance, edge-enhance, invert,
    blur, upscale 2x, downscale to original size", with
    [blurRadiusPre=10, contrastFactor=1.5, blurRadiusPost=5,
    upscaleFactor=2]. *)
Definition spec_chain : list transform_step :=
  [ConvertRGB; Blur 10; EnhanceContrast (3 # 2); EdgeEnhance; Invert; Blur 5;
   Upscale 2; DownscaleToOriginal].

(** [saveQuality=95] *)
Definition spec_save_quality : Z := 95.

Section TransformReading.
Context (env : Env) `{PIL}.

(** The image in hand and the size it had before the upscale. *)
Record chain_state := mkChain { current : Image; size_before_upscale : Z * Z }.

(** One step of the chain; both resize steps use the kernel [kernel]. *)
Definition apply_step (kernel : Resampling) (st : chain_state) (step : transform_step)
  : Outcome chain_state :=
  let keep img := mkChain img (size_before_upscale st) in
  match step with
  | ConvertRGB => keep <$> Image_convert "RGB" (current st)
  | Blur radius => keep <$> Image_filter (GaussianBlur radius) (current st)
  | EnhanceContrast factor => keep <$> ImageEnhance_Contrast factor (current st)
  | EdgeEnhance => keep <$> Image_filter EDGE_ENHANCE_MORE (current st)
  | Invert => keep <$> ImageOps_invert (current st)
  | Upscale factor =>
      let size := Image_size (current st) in
      img ← Image_resize (size.1 * factor, size.2 * factor) kernel (current st);
      mret (mkChain img size)
  | DownscaleToOriginal => keep <$> Image_resize (size_before_upscale st) kernel (current st)
  end.

Fixpoint apply_chain (kernel : Resampling) (steps : list transform_step) (st : chain_state)
  : Outcome chain_state :=
  match steps with
  | [] => mret st
  | step :: steps' => st' ← apply_step kernel st step; apply_chain kernel steps' st'
  end.

(** What [Image.open] finds at [p]. *)
Definition read_outcome (p : path) (w : World) : Outcome bytes :=
  match fs_error env (OpRead p) with
  | Some e => Raise e
  | None =>
      match fs w !! p with
      | Some data => Ok data
      | None => Raise (Exn FileNotFoundError "No such file or directory")
      end
  end.

(** Decode, the chain, encode with the save quality: the content to write
    under [image], from the content [data] of the input file. *)
Definition transformed (kernel : Resampling) (optimize : bool) (image : string)
    (data : bytes) : Outcome bytes :=
  img ← Image_open data;
  st ← apply_chain kernel spec_chain (mkChain img (Image_size img));
  Image_encode image spec_save_quality optimize (current st).

(** The transform of [image] in world [w]: the content written to the
    output directory, or the error of the step that failed. *)
Definition transform_outcome (kernel : Resampling) (optimize : bool)
    (image dir_origin dir_name : string) (w : World) : Outcome bytes :=
  data ← read_outcome (dir_origin, image) w;
  out ← transformed kernel optimize image data;
  match fs_error env (OpWrite (dir_name, image)) with
  | Some e => Raise e
  | None => Ok out
  end.

(** The transform task as the specification words it: on success the output
    is written under the same file name and the task reports success; on a
    failure nothing is written and the task reports the failure with the
    message of the error. *)
Definition spec_transform_task (kernel : Resampling) (optimize : bool)
    (args : string * string * string) : M (list pyval) :=
  fun w =>
    let '(image, dir_origin, dir_name) := args in
    match transform_outcome kernel optimize image dir_origin dir_name w with
    | Ok out =>
        (Ok [PyBool true; PyStr image],
         mkWorld (<[(dir_name, image) := out]> (fs w)) (calls w) (ticks w) (log w))
    | Raise e => (Ok [PyBool false; PyStr image; PyStr (str e)], w)
    end.

(** The result tuple of the task for [image] in world [w]. *)
Definition task_result (image dir_origin dir_name : string) (w : World) : list pyval :=
  match transform_outcome LANCZOS true image dir_origin dir_name w with
  | Ok _ => [PyBool true; PyStr image]
  | Raise e => [PyBool false; PyStr image; PyStr (str e)]
  end.

(** The two shapes of a result of the transform task. *)
Definition result_shape (result : list pyval) : Prop :=
  (exists image, result = [PyBool true; PyStr image])
  \/ (exists image message, result = [PyBool false; PyStr image; PyStr message]).


End TransformReading.

(** ** Concrete worlds, for the examples *)

Module Demo.

Definition empty_world : World := mkWorld ∅ ∅ 0 [].

Definition png : bytes := [Byte.x89; Byte.x50; Byte.x4e; Byte.x47].

Definition ticking (k : nat) : Q := inject_Z (Z.of_nat k).

(** A server that answers 503 to the first request for [002.png], refuses
    every connection for [003.png], and serves everything else. *)
Definition flaky_http (url : string) (k : nat) : Outcome Response :=
  if endswith url "003.png" then Raise (Exn ConnectionError "Connection refused")
  else if endswith url "002.png" && (k =? 0)%nat then Ok (mkResponse 503 [])
  else Ok (mkResponse 200 png).

Definition flaky_env : Env := mkEnv flaky_http (fun _ => None) ticking [1%nat].

(** A healthy server and a full disk: every write raises. *)
Definition disk_full (op : fs_op) : option exn :=
  match op with
  | OpWrite _ => Some (Exn OSError "No space left on device")
  | _ => None
  end.

Definition disk_full_env : Env :=
  mkEnv (fun _ _ => Ok (mkResponse 200 png)) disk_full ticking [].


(** A small image library: an image is its size and its data; only data
    that starts with the PNG signature decodes. *)
Definition toy_open (data : bytes) : Outcome (Z * Z * bytes) :=
  match data with
  | Byte.x89 :: Byte.x50 :: Byte.x4e :: Byte.x47 :: _ => Ok (2, 3, data)
  | _ => Raise (Exn UnidentifiedImageError "cannot identify image file")
  end.

#[local] Instance toy_PIL : PIL := {|
  Image := Z * Z * bytes;
  Image_open := toy_open;
  Image_convert _ img := Ok img;
  Image_filter _ img := Ok img;
  ImageEnhance_Contrast _ img := Ok img;
  ImageOps_invert img := Ok (img.1, rev img.2);
  Image_size img := img.1;
  Image_resize size _ img := Ok (size, img.2);
  Image_encode _ _ _ img := Ok img.2
|}.

(** A dataset directory with two images, one of them corrupted, and a
    file that is not an image. *)
Definition dataset : gmap path bytes :=
  <[("pokemon_dataset", "002.png") := [Byte.x00]]>
    (<[("pokemon_dataset", "001.png") := png]>
       (<[("pokemon_dataset", "notes.txt") := []]> ∅)).

Definition dataset_world : World := mkWorld dataset ∅ 0 [].

(** The same directory with the copy of [003.png] that an earlier run left. *)
Definition stale_world : World :=
  mkWorld (<[("pokemon_dataset", "003.png") := png]> dataset) ∅ 0 [].

End Demo.

(** ** The rest of [pokemon_optimizado2.py] *)

Section Pipeline.
Context (env : Env) `{PIL}.



(** [main()]; the two phases run with their defaults, [n=150],
    ['pokemon_dataset'] and ['pokemon_processed'].  What the function prints
    is not kept; the banner of [pika_banner], a module that is not among the
    sources and that the specification counts as decoration, is taken to
    print and to do nothing else. *)
Definition main : M Q :=
  total_start_time ← time_time env;
  download_time ← download_pokemon env 150 "pokemon_dataset" IO_WORKERS;
  processing_time ← process_pokemon env "pokemon_dataset" "pokemon_processed" MAX_CPU_WORKERS;
  now ← time_time env;
  mret (now - total_start_time)%Q.

End Pipeline.

(** ** The first parallel version ([pokemon_optimizado1.py]) *)

Module Optimizado1.
Section Program.
Context (env : Env) `{PIL}.

Definition download_single_pokemon (args : Z * string * string) : M bool :=
  let '(i, dir_name, base_url) := args in
  let file_name := format_03d i +:+ ".png" in
  let url := base_url +:+ "/" +:+ file_name in
  try_except
    (response ← requests_get env url None;
     raise_for_status response;;
     let img_path := os_path_join dir_name file_name in
     write_file env img_path (content response);;
     mret true)
    is_RequestException
    (fun e => mret false).

(** The loop over [as_completed(futures)], shared by the two phases:
    [if future.result(): successful += 1]. *)
Fixpoint count_successful (futures : list (Outcome bool)) (successful : Z) : M Z :=
  match futures with
  | [] => mret successful
  | future :: rest =>
      result ← lift future;
      if result : bool
      then count_successful rest (successful + 1)
      else count_successful rest successful
  end.

(** The function returns [total_time]; it is kept with the counter that the
    summary prints. *)
Definition download_pokemon (n : Z) (dir_name : string) (max_workers : Z) : M (Q * Z) :=
  os_makedirs env dir_name;;
  start_time ← time_time env;
  let download_args := map (fun i => (i, dir_name, base_url)) (range 1 (n + 1)) in
  futures ← executor_futures env max_workers download_single_pokemon download_args;
  successful_downloads ← count_successful futures 0;
  now ← time_time env;
  let total_time := (now - start_time)%Q in
  divide total_time (inject_Z n);;
  mret (total_time, successful_downloads).

Definition process_single_image (args : string * string * string) : M bool :=
  let '(image, dir_origin, dir_name) := args in
  try_except
    (let path_origin := os_path_join dir_origin image in
     data ← read_file env path_origin;
     img ← lift (Image_open data);
     img ← lift (Image_convert "RGB" img);
     img ← lift (Image_filter (GaussianBlur 10) img);
     img ← lift (ImageEnhance_Contrast (3 # 2) img);
     img ← lift (Image_filter EDGE_ENHANCE_MORE img);
     img_inv ← lift (ImageOps_invert img);
     img_inv ← lift (Image_filter (GaussianBlur 5) img_inv);
     let '(width, height) := Image_size img_inv in
     img_inv ← lift (Image_resize (width * 2, height * 2) LANCZOS img_inv);
     img_inv ← lift (Image_resize (width, height) LANCZOS img_inv);
     let saving_path := os_path_join dir_name image in
     Image_save env img_inv saving_path 95 false;;
     mret true)
    (fun _ => true)
    (fun e => mret false).

Definition process_pokemon (dir_origin dir_name : string) (max_workers : Z) : M (Q * Z) :=
  os_makedirs env dir_name;;
  images ← list_images env dir_origin;
  let total := length images in
  start_time ← time_time env;
  let process_args := map (fun image => (image, dir_origin, dir_name)) images in
  futures ← executor_futures env max_workers process_single_image process_args;
  successful_processing ← count_successful futures 0;
  now ← time_time env;
  let total_time := (now - start_time)%Q in
  divide total_time (inject_Z (Z.of_nat total));;
  mret (total_time, successful_processing).

(** The script (the [__main__] block), with its total; what it prints is
    not kept. *)
Definition script : M Q :=
  download_time ← download_pokemon 150 "pokemon_dataset" 40;
  processing_time ← process_pokemon "pokemon_dataset" "pokemon_processed" 8;
  mret (download_time.1 + processing_time.1)%Q.

End Program.
End Optimizado1.

(** The script of [pokemon.py] (its [__main__] block), with its total; what
    it prints is not kept. *)
Definition pokemon_script (env : Env) `{PIL} : M Q :=
  download_time ← Baseline.download_pokemon env 150 "pokemon_dataset";
  processing_time ← Baseline.process_pokemon env "pokemon_dataset" "pokemon_processed";
  mret (download_time + processing_time)%Q.

(** ** Reading the phases *)

(** The file name and the URL of item [i]. *)
Definition item_name (i : Z) : string := format_03d i +:+ ".png".
Definition item_url (b : string) (i : Z) : string := b +:+ "/" +:+ item_name i.

(** The world [w] with the events [l]. *)
Definition with_log (l : list event) (w : World) : World :=
  mkWorld (fs w) (calls w) (ticks w) l.

(** The world after one more request to [url]. *)
Definition after_request (url : string) (timeout : option Z) (w : World) : World :=
  mkWorld (fs w) (<[url := S (sent url w)]> (calls w)) (ticks w) (log w ++ [EvGet url timeout]).

(** Whether a call has returned. *)
Definition is_ok {A} (o : Outcome A) : bool :=
  match o with
  | Ok _ => true
  | Raise _ => false
  end.


Section PhaseReading.
Context (env : Env) `{PIL}.

(** What the one attempt of [pokemon.py] and of [pokemon_optimizado1.py]
    comes to for item [i]: the data to keep, or the exception. *)
Definition fetch_once (b dir_name : string) (i : Z) (w : World) : Outcome bytes :=
  attempt_at env (item_url b i) (dir_name, item_name i) w 0.

(** What the two attempts of [pokemon_optimizado2.py] come to for item [i]:
    the second attempt counts when the first raised an exception of the
    request classes. *)
Definition fetch_outcome (b dir_name : string) (i : Z) (w : World) : Outcome bytes :=
  match attempt_at env (item_url b i) (dir_name, item_name i) w 0 with
  | Ok data => Ok data
  | Raise e =>
      if is_RequestException e
      then attempt_at env (item_url b i) (dir_name, item_name i) w 1
      else Raise e
  end.

(** What the task of [pokemon_optimizado2.py] gives for item [i]: its result,
    or the exception it lets through. *)
Definition fetch_result (b dir_name : string) (i : Z) (w : World) : Outcome (bool * string) :=
  match fetch_outcome b dir_name i w with
  | Ok _ => Ok (true, item_name i)
  | Raise e => if is_RequestException e then Ok (false, item_name i) else Raise e
  end.

(** The requests that these two attempts send. *)
Definition fetch_requests (b dir_name : string) (i : Z) (w : World) : nat :=
  match attempt_at env (item_url b i) (dir_name, item_name i) w 0 with
  | Ok _ => 1
  | Raise e => if is_RequestException e then 2 else 1
  end.

(** The ids of [ids] whose fetch fails with an exception of the request
    classes, by name. *)
Definition fetch_failures (b dir_name : string) (w : World) (ids : list Z) : list string :=
  omap (fun i => match fetch_outcome b dir_name i w with
                 | Ok _ => None
                 | Raise _ => Some (item_name i)
                 end) ids.

(** The images of [images] whose transform fails, each with the message of
    its error. *)
Definition transform_failures (dir_origin dir_name : string) (w : World)
    (images : list string) : list (pyval * pyval) :=
  omap (fun image =>
          match transform_outcome env LANCZOS true image dir_origin dir_name w with
          | Ok _ => None
          | Raise e => Some (PyStr image, PyStr (str e))
          end) images.

(** The body of the loop of [download_pokemon] of [pokemon.py]. *)
Definition download_body (dir_name : string) (i : Z) : M unit :=
  let file_name := format_03d i +:+ ".png" in
  let url := base_url +:+ "/" +:+ file_name in
  try_except
    (response ← requests_get env url None;
     raise_for_status response;;
     let img_path := os_path_join dir_name file_name in
     write_file env img_path (content response))
    is_RequestException
    (fun e => mret tt).

(** The images of directory [d]. *)
Definition images_of (d : string) (w : World) : list string :=
  sorted (filter (fun f => endswith f ".png" = true) (dir_names d (fs w))).

End PhaseReading.

(** ** The chunked search ([test.py]) *)

Module ParallelSearch.

(** The bound [i] of a slice of a sequence of length [len]: a negative bound
    counts from the end, and a bound beyond an end is that end. *)
Definition slice_bound (len i : Z) : Z :=
  if i <? 0 then Z.max (i + len) 0 else Z.min i len.

(** [l[start:stop]] *)
Definition py_slice {A} (l : list A) (start stop : Z) : list A :=
  let len := Z.of_nat (length l) in
  let a := slice_bound len start in
  let b := slice_bound len stop in
  take (Z.to_nat (b - a)) (drop (Z.to_nat a) l).

(** [x // y] on integers *)
Definition floordiv (x y : Z) : Outcome Z :=
  if y =? 0 then Raise (Exn ZeroDivisionError "integer division or modulo by zero")
  else Ok (x / y).

Fixpoint search_in_chunk (chunk : list Z) (target chunk_id : Z) : bool * Z :=
  match chunk with
  | [] => (false, chunk_id)
  | value :: rest =>
      if value =? target then (true, chunk_id)
      else search_in_chunk rest target chunk_id
  end.

(** What [worker] puts in the queue. *)
Definition worker (chunk_tuple : list Z * Z * Z) : bool * Z :=
  let '(chunk, target, chunk_id) := chunk_tuple in
  search_in_chunk chunk target chunk_id.

(** The loop that cuts [data] into chunks, [chunks] being the list so far. *)
Fixpoint cut_chunks (data : list Z) (target chunk_size n_cores : Z) (indices : list Z)
    (chunks : list (list Z * Z * Z)) : list (list Z * Z * Z) :=
  match indices with
  | [] => chunks
  | i :: rest =>
      let start := i * chunk_size in
      let stop := if i <? n_cores - 1 then start + chunk_size else Z.of_nat (length data) in
      cut_chunks data target chunk_size n_cores rest
        (chunks ++ [(py_slice data start stop, target, i)])
  end.

(** What the function prints about the target. *)
Inductive search_report :=
  | Found (chunk_id : Z)
  | NotFound.

(** [for found, chunk_id in results: if found: ...; break] and its [else]. *)
Fixpoint report (results : list (bool * Z)) : search_report :=
  match results with
  | [] => NotFound
  | (found, chunk_id) :: rest => if found then Found chunk_id else report rest
  end.

(** One process per chunk, all started and joined; the queue then holds the
    result of every worker, in the order in which the workers put them,
    which [arrival] decides. *)
Definition parallel_search (arrival : list nat) (data : list Z) (target n_cores : Z)
  : Outcome search_report :=
  chunk_size ← floordiv (Z.of_nat (length data)) n_cores;
  let chunks := cut_chunks data target chunk_size n_cores (range 0 n_cores) [] in
  let results := as_completed (length chunks) arrival (map worker chunks) in
  mret (report results).

End ParallelSearch.

(** ** Proof tools *)

Ltac unfold_monad :=
  unfold mbind, M_bind, bind, mret, M_ret, ret, raise, lift, try_except in *.

(** * Properties *)

(** ** The definitions on small inputs *)

Example format_03d_7 : format_03d 7 = "007".
Proof. reflexivity. Qed.
Example format_03d_150 : format_03d 150 = "150".
Proof. reflexivity. Qed.
Example format_03d_1234 : format_03d 1234 = "1234".
Proof. reflexivity. Qed.
Example format_03d_neg5 : format_03d (-5) = "-05".
Proof. reflexivity. Qed.
Example endswith_png : endswith "001.png" ".png" = true.
Proof. reflexivity. Qed.
Example endswith_jpg : endswith "001.jpg" ".png" = false.
Proof. reflexivity. Qed.
Example endswith_short : endswith "png" ".png" = false.
Proof. reflexivity. Qed.
Example range_1_4 : range 1 4 = [1; 2; 3].
Proof. reflexivity. Qed.
Example range_empty : range 1 0 = [].
Proof. reflexivity. Qed.
Example as_completed_in_order :
  as_completed 2 [0; 0; 0]%nat ["a"; "b"; "c"] = ["a"; "b"; "c"].
Proof. reflexivity. Qed.
Example as_completed_out_of_order :
  as_completed 2 [1; 1; 0]%nat ["a"; "b"; "c"] = ["b"; "c"; "a"].
Proof. reflexivity. Qed.
Example as_completed_one_worker :
  as_completed 1 [1; 1; 0]%nat ["a"; "b"; "c"] = ["a"; "b"; "c"].
Proof. reflexivity. Qed.

(** ** Tools *)

Lemma bind_ok {A B} (m : M A) (k : A -> M B) w a w' :
  m w = (Ok a, w') -> (m ≫= k) w = k a w'.
Proof. intros Hm. unfold_monad. by rewrite Hm. Qed.

Lemma bind_raise {A B} (m : M A) (k : A -> M B) w e w' :
  m w = (Raise e, w') -> (m ≫= k) w = (Raise e, w').
Proof. intros Hm. unfold_monad. by rewrite Hm. Qed.


Lemma range_nil lo hi : hi <= lo -> range lo hi = [].
Proof. intros Hle. unfold range. by replace (Z.to_nat (hi - lo)) with 0%nat by lia. Qed.

Lemma range_cons lo hi : lo < hi -> range lo hi = lo :: range (lo + 1) hi.
Proof.
  intros Hlt. unfold range.
  replace (Z.to_nat (hi - lo)) with (S (Z.to_nat (hi - (lo + 1)))) by lia.
  cbn [seq map]. f_equal; [lia |].
  rewrite <- seq_shift, map_map. apply map_ext. intros k. lia.
Qed.

Lemma length_range lo hi : length (range lo hi) = Z.to_nat (hi - lo).
Proof. unfold range. by rewrite length_map, length_seq. Qed.

Lemma NoDup_range lo hi : NoDup (range lo hi).
Proof.
  unfold range. apply NoDup_fmap_2; [| apply NoDup_seq].
  intros j k Hjk. lia.
Qed.

Lemma elem_of_range lo hi i : i ∈ range lo hi <-> lo <= i < hi.
Proof.
  unfold range. rewrite list_elem_of_fmap. split.
  - intros (k & -> & Hk). apply elem_of_seq in Hk. lia.
  - intros Hi. exists (Z.to_nat (i - lo)). split; [lia |].
    apply elem_of_seq. lia.
Qed.

(** ** File names and their order *)

Lemma digits_value_zeros k s : digits_value (zeros k +:+ s) = digits_value s.
Proof.
  induction k as [|k IH]; [done |].
  cbn [zeros]. change (String "0" (zeros k) +:+ s) with (String "0" (zeros k +:+ s)).
  unfold digits_value in *. cbn [NilEmpty.uint_of_string].
  destruct (NilEmpty.uint_of_string (zeros k +:+ s)) as [d|]; cbn;
    [| by destruct (NilEmpty.uint_of_string s)].
  exact IH.
Qed.

Lemma digits_value_decimal i : 0 <= i -> digits_value (decimal i) = Z.to_N i.
Proof.
  intros Hi. unfold decimal, digits_value, NilZero.string_of_uint.
  destruct (N.to_uint (Z.to_N i)) eqn:Hd;
    [cbn; by rewrite <- (DecimalN.Unsigned.of_to (Z.to_N i)), Hd | ..];
    rewrite NilEmpty.usu, <- Hd; apply DecimalN.Unsigned.of_to.
Qed.

Lemma format_03d_inj i j : 0 <= i -> 0 <= j -> format_03d i = format_03d j -> i = j.
Proof.
  intros Hi Hj. unfold format_03d.
  destruct (Z.ltb_spec i 0); [lia |]. destruct (Z.ltb_spec j 0); [lia |].
  intros Heq. apply (f_equal digits_value) in Heq. unfold zfill in Heq.
  rewrite !digits_value_zeros, !digits_value_decimal in Heq by done. lia.
Qed.

Lemma string_length_app s t :
  String.length (s +:+ t) = (String.length s + String.length t)%nat.
Proof.
  induction s as [|c s IH]; [done |].
  change (String c s +:+ t) with (String c (s +:+ t)). cbn [String.length]. by rewrite IH.
Qed.

Lemma string_app_inj_r s1 s2 t : s1 +:+ t = s2 +:+ t -> s1 = s2.
Proof.
  revert s2. induction s1 as [|c1 s1 IH]; intros [|c2 s2] Heq; [done | | |].
  - apply (f_equal String.length) in Heq. rewrite !string_length_app in Heq.
    cbn [String.length] in Heq. lia.
  - apply (f_equal String.length) in Heq. rewrite !string_length_app in Heq.
    cbn [String.length] in Heq. lia.
  - change (String c1 (s1 +:+ t) = String c2 (s2 +:+ t)) in Heq.
    injection Heq as -> Heq. f_equal. by apply IH.
Qed.

Lemma sorted_Sorted names : Sorted String.le (sorted names).
Proof. apply Sorted_merge_sort. apply _. Qed.

Lemma sorted_Permutation names : sorted names ≡ₚ names.
Proof. apply merge_sort_Permutation. Qed.

(** The order in which the directory lists its names does not matter. *)
Lemma sorted_listing_order names1 names2 :
  names1 ≡ₚ names2 -> sorted names1 = sorted names2.
Proof.
  intros Hperm. apply (Sorted_unique String.le); try apply sorted_Sorted.
  by rewrite !sorted_Permutation.
Qed.

Lemma elem_of_dir_names d files f : f ∈ dir_names d files <-> is_Some (files !! (d, f)).
Proof.
  unfold dir_names. rewrite list_elem_of_fmap. split.
  - intros ([d' f'] & -> & Hin). apply list_elem_of_filter in Hin as [Hd Hin].
    cbn in Hd. subst d'. apply list_elem_of_fmap in Hin as ([k data] & Hk & Hin).
    cbn in Hk. subst k. apply elem_of_map_to_list in Hin. by exists data.
  - intros [data Hdata]. exists (d, f). split; [done |].
    apply list_elem_of_filter. split; [done |].
    apply list_elem_of_fmap. exists ((d, f), data). split; [done |].
    by apply elem_of_map_to_list.
Qed.

Lemma NoDup_dir_names d files : NoDup (dir_names d files).
Proof.
  unfold dir_names. apply NoDup_fmap_2_strong.
  - intros [d1 f1] [d2 f2] H1 H2 Hf. cbn in Hf. subst f2.
    apply list_elem_of_filter in H1 as [Hd1 _]. apply list_elem_of_filter in H2 as [Hd2 _].
    cbn in Hd1, Hd2. by subst.
  - apply NoDup_filter, NoDup_fst_map_to_list.
Qed.

(** The images of a directory: the names of its files that end in [.png],
    each once, in order. *)
Lemma images_of_directory d files :
  let images := sorted (filter (fun f => endswith f ".png" = true) (dir_names d files)) in
  Sorted String.le images
  /\ NoDup images
  /\ (forall f, f ∈ images <-> is_Some (files !! (d, f)) /\ endswith f ".png" = true).
Proof.
  intros images. split; [apply sorted_Sorted |]. split.
  - unfold images. rewrite sorted_Permutation. apply NoDup_filter, NoDup_dir_names.
  - intros f. unfold images. rewrite sorted_Permutation, list_elem_of_filter, elem_of_dir_names.
    tauto.
Qed.

(** ** The fetch task *)

Section FetchTask.
Context (env : Env).

Lemma download_single_pokemon_unfold i dir_name b retry_count :
  download_single_pokemon env (i, dir_name, b, retry_count) =
  let file_name := format_03d i +:+ ".png" in
  r ← for_return (range 0 retry_count)
        (attempt_body env (b +:+ "/" +:+ file_name) dir_name file_name retry_count);
  match r with
  | Some result => mret result
  | None => mret (false, file_name)
  end.
Proof. reflexivity. Qed.

Lemma attempt_body_run url dir_name file_name retry_count attempt w :
  attempt_body env url dir_name file_name retry_count attempt w =
  match attempt_at env url (dir_name, file_name) w 0 with
  | Ok data =>
      (Ok (Some (true, file_name)), after_write (dir_name, file_name) data (after_get url w))
  | Raise e =>
      if is_RequestException e
      then if attempt =? retry_count - 1
           then (Ok (Some (false, file_name)), after_get url w)
           else (Ok None, after_sleep (after_get url w))
      else (Raise e, after_get url w)
  end.
Proof.
  unfold attempt_at, attempt_body, attempt_outcome, requests_get, raise_for_status,
    write_file, time_sleep, os_path_join.
  rewrite Nat.add_0_r.
  unfold_monad. fold (sent url w). fold (after_get url w).
  destruct (http env url (sent url w)) as [response|e]; cbn.
  - destruct ((400 <=? status_code response) && (status_code response <? 600)); cbn.
    + by destruct (attempt =? retry_count - 1).
    + destruct (fs_error env (OpWrite (dir_name, file_name))) as [e|]; cbn; [| done].
      destruct (is_RequestException e); [| done].
      by destruct (attempt =? retry_count - 1).
  - destruct (is_RequestException e); [| done].
    by destruct (attempt =? retry_count - 1).
Qed.

Lemma sent_after_get url w : sent url (after_get url w) = S (sent url w).
Proof. unfold sent at 1. cbn. by rewrite lookup_insert_eq. Qed.

Lemma attempt_at_after_failure url p w k :
  attempt_at env url p (after_sleep (after_get url w)) k = attempt_at env url p w (S k).
Proof.
  unfold attempt_at. replace (sent url (after_sleep (after_get url w))) with (S (sent url w)).
  - by rewrite Nat.add_succ_comm.
  - symmetry. apply sent_after_get.
Qed.

Lemma after_failures_S url j w :
  after_failures url (S j) w = after_failures url j (after_sleep (after_get url w)).
Proof. unfold after_failures. by rewrite Nat.iter_succ_r. Qed.

Lemma attempt_at_after_failures url p j w t :
  attempt_at env url p (after_failures url j w) t = attempt_at env url p w (j + t).
Proof.
  revert w t. induction j as [|j IH]; intros w t; [done |].
  by rewrite after_failures_S, IH, attempt_at_after_failure.
Qed.

Lemma retry_trace_S url k :
  retry_trace url (S (S k)) = EvGet url (Some 10) :: EvSleep 1 :: retry_trace url (S k).
Proof. reflexivity. Qed.

Lemma after_get_after_failures url j w :
  after_get url (after_failures url j w) = after_attempts url (S j) w.
Proof.
  revert w. induction j as [|j IH]; intros w.
  - unfold after_failures, after_attempts, after_get. cbn. by rewrite Nat.add_1_r.
  - rewrite after_failures_S, IH. unfold after_attempts.
    replace (sent url (after_sleep (after_get url w))) with (S (sent url w))
      by (symmetry; apply sent_after_get).
    rewrite retry_trace_S. cbn. rewrite insert_insert_eq.
    rewrite <- !app_assoc. cbn. f_equal. f_equal. lia.
Qed.

(** The attempts that fail before the last one are paid with a pause each,
    and the loop goes on. *)
Lemma for_return_skip_failures url dir_name file_name retry_count (j : nat) a w :
  a + Z.of_nat j < retry_count ->
  (forall t, (t < j)%nat -> attempt_fails (attempt_at env url (dir_name, file_name) w t)) ->
  for_return (range a retry_count) (attempt_body env url dir_name file_name retry_count) w =
  for_return (range (a + Z.of_nat j) retry_count)
    (attempt_body env url dir_name file_name retry_count) (after_failures url j w).
Proof.
  revert a w. induction j as [|j IH]; intros a w Hlt Hfail.
  - by rewrite Z.add_0_r.
  - rewrite (range_cons a) by lia. cbn [for_return].
    unfold mbind, M_bind, bind at 1. rewrite attempt_body_run.
    specialize (Hfail 0%nat ltac:(lia)) as Hfirst.
    destruct (attempt_at env url (dir_name, file_name) w 0) as [data|e]; [done |].
    cbn in Hfirst. rewrite Hfirst.
    destruct (Z.eqb_spec a (retry_count - 1)) as [->|_]; [lia |].
    rewrite after_failures_S.
    replace (a + Z.of_nat (S j)) with ((a + 1) + Z.of_nat j) by lia.
    apply IH; [lia |].
    intros t Ht. rewrite attempt_at_after_failure. apply Hfail. lia.
Qed.

Lemma attempt_body_ok url dir_name file_name retry_count attempt w r w' :
  attempt_body env url dir_name file_name retry_count attempt w = (Ok (Some r), w') ->
  r.2 = file_name.
Proof.
  rewrite attempt_body_run.
  destruct (attempt_at env url (dir_name, file_name) w 0) as [data|e].
  - by intros [= <- _].
  - destruct (is_RequestException e); [| done].
    destruct (attempt =? retry_count - 1); [by intros [= <- _] | done].
Qed.


Lemma for_return_attempts_ok url dir_name file_name retry_count xs w r w' :
  for_return xs (attempt_body env url dir_name file_name retry_count) w = (Ok (Some r), w') ->
  r.2 = file_name.
Proof.
  revert w. induction xs as [|x xs IH]; intros w; cbn [for_return]; [done |].
  unfold mbind, M_bind, bind at 1.
  destruct (attempt_body env url dir_name file_name retry_count x w) as [[[r0|]|e] w1] eqn:Hbody;
    [| by apply IH | done].
  intros [= <- _]. by eapply attempt_body_ok.
Qed.


Lemma download_single_pokemon_ok i dir_name b retry_count w result w' :
  download_single_pokemon env (i, dir_name, b, retry_count) w = (Ok result, w') ->
  result.2 = format_03d i +:+ ".png".
Proof.
  rewrite download_single_pokemon_unfold. cbn zeta.
  unfold mbind, M_bind, bind at 1.
  destruct (for_return _ _ w) as [[[r|]|e] w1] eqn:Hloop; [| by intros [= <- _] | done].
  intros [= <- _]. by eapply for_return_attempts_ok.
Qed.


(** C2. With an attempt budget [max_attempts >= 1]: when the first [k - 1]
    attempts fail (the request or its status check raises an exception of
    the request classes) and attempt [k <= max_attempts] succeeds, the task
    returns the success result, the file holds the data received, and the
    task has sent exactly [k] requests with one pause of a second after each
    failed one; when all [max_attempts] attempts fail, the task returns the
    failure result, nothing is written, and the task has sent exactly
    [max_attempts] requests, with a pause between two of them and none after
    the last. *)
Theorem download_single_pokemon_retries i dir_name b (max_attempts : nat) w :
  let file_name := format_03d i +:+ ".png" in
  let url := b +:+ "/" +:+ file_name in
  let p := (dir_name, file_name) in
  (1 <= max_attempts)%nat ->
  (forall (k : nat) data,
      (1 <= k <= max_attempts)%nat ->
      (forall j, (j < k - 1)%nat -> attempt_fails (attempt_at env url p w j)) ->
      attempt_at env url p w (k - 1) = Ok data ->
      download_single_pokemon env (i, dir_name, b, Z.of_nat max_attempts) w =
      (Ok (true, file_name), after_write p data (after_attempts url k w)))
  /\ ((forall j, (j < max_attempts)%nat -> attempt_fails (attempt_at env url p w j)) ->
      download_single_pokemon env (i, dir_name, b, Z.of_nat max_attempts) w =
      (Ok (false, file_name), after_attempts url max_attempts w)).
Proof.
  intros file_name url p Hbudget. split.
  - intros k data Hk Hfail Hok.
    rewrite download_single_pokemon_unfold. cbn zeta. fold file_name url.
    unfold mbind, M_bind, bind at 1.
    rewrite (for_return_skip_failures url dir_name file_name _ (k - 1) 0 w) by (done || lia).
    rewrite range_cons by lia. cbn [for_return].
    unfold mbind, M_bind, bind at 1. rewrite attempt_body_run.
    rewrite attempt_at_after_failures, Nat.add_0_r. fold p. rewrite Hok.
    cbn. rewrite after_get_after_failures. by replace (S (k - 1)) with k by lia.
  - intros Hfail.
    rewrite download_single_pokemon_unfold. cbn zeta. fold file_name url.
    unfold mbind, M_bind, bind at 1.
    rewrite (for_return_skip_failures url dir_name file_name _ (max_attempts - 1) 0 w)
      by (lia || (intros; apply Hfail; lia)).
    rewrite range_cons by lia. cbn [for_return].
    unfold mbind, M_bind, bind at 1. rewrite attempt_body_run.
    rewrite attempt_at_after_failures, Nat.add_0_r. fold p.
    specialize (Hfail (max_attempts - 1)%nat ltac:(lia)).
    destruct (attempt_at env url p w (max_attempts - 1)) as [data|e]; [done |].
    cbn in Hfail. rewrite Hfail.
    destruct (Z.eqb_spec (0 + Z.of_nat (max_attempts - 1)) (Z.of_nat max_attempts - 1)); [| lia].
    cbn. rewrite after_get_after_failures. by replace (S (max_attempts - 1)) with max_attempts by lia.
Qed.

(** C9. With a retry count of 0 the task sends no request and writes no
    file (it leaves the world as it found it) and returns the failure result
    with the zero-padded name of the item; and for every retry count, the
    name in a result the task returns, success or failure, is the zero-padded
    name of the item. *)
Theorem download_single_pokemon_file_name i dir_name b w :
  download_single_pokemon env (i, dir_name, b, 0) w = (Ok (false, format_03d i +:+ ".png"), w)
  /\ (forall retry_count result w',
        download_single_pokemon env (i, dir_name, b, retry_count) w = (Ok result, w') ->
        result.2 = format_03d i +:+ ".png").
Proof.
  split; [reflexivity |].
  intros retry_count result w'. apply download_single_pokemon_ok.
Qed.

End FetchTask.

Lemma download_single_pokemon_retries_witness :
  download_single_pokemon Demo.flaky_env (2, "pokemon_dataset", base_url, 2) Demo.empty_world =
  (Ok (true, "002.png"),
   after_write ("pokemon_dataset", "002.png") Demo.png
     (after_attempts (base_url +:+ "/002.png") 2 Demo.empty_world))
  /\ download_single_pokemon Demo.flaky_env (3, "pokemon_dataset", base_url, 2) Demo.empty_world =
     (Ok (false, "003.png"), after_attempts (base_url +:+ "/003.png") 2 Demo.empty_world).
Proof.
  split.
  - apply (proj1 (download_single_pokemon_retries Demo.flaky_env 2 "pokemon_dataset"
                    base_url 2 Demo.empty_world (le_S 1 1 (le_n 1))) 2%nat Demo.png).
    + split; [exact (le_S 1 1 (le_n 1)) | exact (le_n 2)].
    + intros [|j] Hj; [exact (eq_refl true) |].
      exfalso. apply (Nat.nlt_0_r j). exact (proj2 (Nat.succ_lt_mono j 0) Hj).
    + reflexivity.
  - apply (proj2 (download_single_pokemon_retries Demo.flaky_env 3 "pokemon_dataset"
                    base_url 2 Demo.empty_world (le_S 1 1 (le_n 1)))).
    intros [|[|j]] Hj; [exact (eq_refl true) | exact (eq_refl true) |].
    exfalso. apply (Nat.nlt_0_r j).
    exact (proj2 (Nat.succ_lt_mono j 0) (proj2 (Nat.succ_lt_mono (S j) 1) Hj)).
Defined.

Lemma download_single_pokemon_file_name_witness :
  (true, "002.png").2 = format_03d 2 +:+ ".png".
Proof.
  apply (proj2 (download_single_pokemon_file_name Demo.flaky_env 2 "pokemon_dataset"
                  base_url Demo.empty_world) 2 (true, "002.png")
           (download_single_pokemon Demo.flaky_env (2, "pokemon_dataset", base_url, 2)
              Demo.empty_world).2).
  vm_compute. reflexivity.
Defined.

(** ** The bounded task pool *)

Section PoolProperties.
Context {T : Type} (c : nat).
Implicit Types p : pool T.

Lemma pool_step_measure p p' : pool_step c p p' -> pool_measure p = S (pool_measure p').
Proof.
  intros [t q r d Hfree | q r1 t r2 d]; unfold pool_measure; cbn;
    rewrite ?length_app; cbn; lia.
Qed.

Lemma pool_step_bound p p' :
  pool_step c p p' -> (length (running p) <= c)%nat -> (length (running p') <= c)%nat.
Proof.
  intros [t q r d Hfree | q r1 t r2 d]; cbn; rewrite ?length_app; cbn; lia.
Qed.

Lemma pool_step_tasks p p' :
  pool_step c p p' ->
  queue p' ++ running p' ++ finished p' ≡ₚ queue p ++ running p ++ finished p.
Proof.
  intros [t q r d Hfree | q r1 t r2 d]; cbn.
  - rewrite <- (app_assoc r [t] d). cbn.
    rewrite (app_assoc q r (t :: d)), <- Permutation_middle.
    by rewrite <- app_assoc.
  - f_equiv. rewrite <- !app_assoc. f_equiv. cbn.
    by rewrite app_assoc, <- Permutation_cons_append.
Qed.

Lemma pool_progress p :
  (1 <= c)%nat -> pool_measure p <> 0%nat -> exists p', pool_step c p p'.
Proof.
  intros Hc Hleft. destruct p as [q r d]. destruct r as [|t r].
  - destruct q as [|t q]; [done |].
    eexists. apply step_start. cbn. lia.
  - eexists. apply (step_finish c q [] t r d).
Qed.

Lemma pool_done p :
  pool_measure p = 0%nat -> queue p = [] /\ running p = [].
Proof.
  destruct p as [q r d]. unfold pool_measure. cbn.
  destruct q, r; cbn; (done || lia).
Qed.

(** What holds of every state that a pool of [c] workers reaches from the
    submission of [tasks], after [n] steps. *)
Lemma pool_reachable (tasks : list T) n p :
  nsteps (pool_step c) n (Pool tasks [] []) p ->
  (length (running p) <= c)%nat
  /\ queue p ++ running p ++ finished p ≡ₚ tasks
  /\ (n + pool_measure p = 2 * length tasks)%nat.
Proof.
  intros Hsteps.
  assert (forall p0,
             nsteps (pool_step c) n p0 p ->
             (length (running p0) <= c)%nat ->
             (length (running p) <= c)%nat
             /\ queue p ++ running p ++ finished p ≡ₚ queue p0 ++ running p0 ++ finished p0
             /\ (n + pool_measure p = pool_measure p0)%nat) as Hgen.
  { clear. intros p0 Hsteps. induction Hsteps as [p0 | n p0 p1 p Hstep Hsteps IH]; intros Hb.
    - done.
    - destruct (IH (pool_step_bound _ _ Hstep Hb)) as (Hb' & Hperm & Hm).
      split; [done |]. split.
      + by rewrite Hperm, (pool_step_tasks _ _ Hstep).
      + rewrite (pool_step_measure _ _ Hstep). lia. }
  destruct (Hgen _ Hsteps) as (Hb & Hperm & Hm); [cbn; lia |].
  split; [done |]. split.
  - by rewrite Hperm, app_nil_r.
  - rewrite Hm. unfold pool_measure. cbn. lia.
Qed.

Lemma schedule_step_sound chs p p' chs' :
  schedule_step c chs p = Some (p', chs') -> pool_step c p p'.
Proof.
  unfold schedule_step, start_next, finish_one. destruct p as [q r d]. cbn.
  destruct q as [|t q]; [| destruct (decide (length r < c)%nat)].
  2: { intros [= <- _]. by apply step_start. }
  all: destruct (r !! (hd 0%nat chs mod length r)%nat) as [t'|] eqn:Hk; [| done];
    intros [= <- _]; rewrite delete_take_drop;
    rewrite <- (take_drop_middle _ _ _ Hk) at 1; apply step_finish.
Qed.

Lemma schedule_step_stuck chs p :
  (1 <= c)%nat -> schedule_step c chs p = None -> pool_measure p = 0%nat.
Proof.
  unfold schedule_step, start_next, finish_one, pool_measure. destruct p as [q r d]. cbn.
  intros Hc. destruct r as [|t r].
  - destruct q as [|t q]; [done |]. cbn. by destruct (decide (0 < c)%nat); [| lia].
  - assert (is_Some ((t :: r) !! (hd 0%nat chs mod length (t :: r))%nat)) as [t' Hk].
    { apply lookup_lt_is_Some. apply Nat.mod_upper_bound. done. }
    rewrite Hk. destruct q as [|t0 q]; [done |].
    by destruct (decide (length (t :: r) < c)%nat).
Qed.

Lemma run_pool_steps fuel chs p :
  (1 <= c)%nat -> (pool_measure p <= fuel)%nat ->
  nsteps (pool_step c) (pool_measure p) p (run_pool fuel c chs p)
  /\ pool_measure (run_pool fuel c chs p) = 0%nat.
Proof.
  intros Hc. revert chs p. induction fuel as [|fuel IH]; intros chs p Hfuel; cbn [run_pool].
  - replace (pool_measure p) with 0%nat by lia. split; [constructor | lia].
  - destruct (schedule_step c chs p) as [[p' chs']|] eqn:Hstep.
    + apply schedule_step_sound in Hstep as Hs.
      pose proof (pool_step_measure _ _ Hs) as Hm.
      destruct (IH chs' p') as [Hsteps Hzero]; [lia |].
      split; [| done]. rewrite Hm. by eapply nsteps_l.
    + pose proof (schedule_step_stuck _ _ Hc Hstep) as Hzero.
      rewrite Hzero. split; [constructor | done].
Qed.

Lemma as_completed_Permutation chs (tasks : list T) :
  (1 <= c)%nat -> as_completed c chs tasks ≡ₚ tasks.
Proof.
  intros Hc. unfold as_completed.
  destruct (run_pool_steps (2 * length tasks) chs (Pool tasks [] []) Hc) as [Hsteps Hzero].
  { unfold pool_measure. cbn. lia. }
  destruct (pool_reachable _ _ _ Hsteps) as (_ & Hperm & _).
  destruct (pool_done _ Hzero) as [Hq Hr]. by rewrite Hq, Hr in Hperm.
Qed.

End PoolProperties.

(** C8. For every sequence of tasks and every limit [c >= 1], in every state
    the pool reaches from the submission of the tasks at most [c] tasks are
    executing, every submitted task is in exactly one of the queue, the
    executing tasks and the finished tasks, and the pool either can take a
    step or has finished every task; a run takes at most two steps per task.
    The results, in the order of completion, are the submitted tasks in some
    order: one per task, none twice, none missing. *)
Theorem bounded_pool_runs_every_task {T : Type} (c : nat) (tasks : list T) :
  (1 <= c)%nat ->
  (forall n p,
      nsteps (pool_step c) n (Pool tasks [] []) p ->
      (length (running p) <= c)%nat
      /\ queue p ++ running p ++ finished p ≡ₚ tasks
      /\ (n <= 2 * length tasks)%nat
      /\ ((exists p', pool_step c p p')
          \/ (queue p = [] /\ running p = [] /\ finished p ≡ₚ tasks)))
  /\ (forall chs,
        as_completed c chs tasks ≡ₚ tasks
        /\ length (as_completed c chs tasks) = length tasks).
Proof.
  intros Hc. split.
  - intros n p Hsteps.
    destruct (pool_reachable c tasks n p Hsteps) as (Hbound & Hperm & Hm).
    split; [done |]. split; [done |]. split; [lia |].
    destruct (decide (pool_measure p = 0%nat)) as [Hzero | Hleft].
    + right. destruct (pool_done p Hzero) as [Hq Hr].
      split; [done |]. split; [done |]. by rewrite Hq, Hr in Hperm.
    + left. by apply pool_progress.
  - intros chs. pose proof (as_completed_Permutation c chs tasks Hc) as Hperm.
    split; [done |]. by rewrite Hperm.
Qed.

Lemma bounded_pool_runs_every_task_witness :
  as_completed 2 [1; 1; 0]%nat ["001.png"; "002.png"; "003.png"]
    ≡ₚ ["001.png"; "002.png"; "003.png"]
  /\ length (as_completed 2 [1; 1; 0]%nat ["001.png"; "002.png"; "003.png"]) = 3%nat.
Proof.
  exact (proj2 (bounded_pool_runs_every_task 2 ["001.png"; "002.png"; "003.png"]
                  (le_S 1 1 (le_n 1))) [1; 1; 0]%nat).
Defined.

(** ** The tasks of a phase *)

Lemma run_tasks_length {A B} (task : A -> M B) order w :
  length (run_tasks task order w).1 = length order.
Proof.
  revert w. induction order as [|a order IH]; intros w; cbn; [done |].
  destruct (task a w) as [o w1]. specialize (IH w1).
  destruct (run_tasks task order w1) as [os w2]. cbn in *. by rewrite IH.
Qed.


(** What every task preserves of the world, the tasks of the pool preserve. *)
Lemma run_tasks_preserves {A B} (task : A -> M B) (I : World -> Prop) order w :
  (forall a w0, I w0 -> I (task a w0).2) ->
  I w -> I (run_tasks task order w).2.
Proof.
  intros HI. revert w. induction order as [|a order IH]; intros w Hw; cbn; [done |].
  pose proof (HI a w Hw) as Ha. destruct (task a w) as [o w1]. specialize (IH w1 Ha).
  by destruct (run_tasks task order w1) as [os w2].
Qed.

Lemma executor_futures_run {A B} env max_workers (task : A -> M B) args w :
  1 <= max_workers ->
  executor_futures env max_workers task args w =
  (Ok (run_tasks task (as_completed (Z.to_nat max_workers) (choices env) args) w).1,
   (run_tasks task (as_completed (Z.to_nat max_workers) (choices env) args) w).2).
Proof.
  intros Hmw. unfold executor_futures.
  destruct (Z.leb_spec max_workers 0); [lia |].
  by destruct (run_tasks _ _ w).
Qed.


(** ** Phase A *)

Section FetchPhase.
Context (env : Env).

Lemma attempt_body_ticks url dir_name file_name retry_count attempt w :
  ticks (attempt_body env url dir_name file_name retry_count attempt w).2 = ticks w.
Proof.
  rewrite attempt_body_run.
  destruct (attempt_at env url (dir_name, file_name) w 0) as [data|e]; [done |].
  destruct (is_RequestException e); [| done].
  by destruct (attempt =? retry_count - 1).
Qed.

Lemma for_return_attempts_ticks url dir_name file_name retry_count xs w :
  ticks (for_return xs (attempt_body env url dir_name file_name retry_count) w).2 = ticks w.
Proof.
  revert w. induction xs as [|x xs IH]; intros w; cbn [for_return]; [done |].
  unfold mbind, M_bind, bind at 1.
  pose proof (attempt_body_ticks url dir_name file_name retry_count x w) as Hx.
  destruct (attempt_body env url dir_name file_name retry_count x w) as [[[r|]|e] w1];
    cbn in *; [done | | done].
  by rewrite IH.
Qed.

Lemma download_single_pokemon_ticks args w :
  ticks (download_single_pokemon env args w).2 = ticks w.
Proof.
  destruct args as [[[i dir_name] b] retry_count].
  rewrite download_single_pokemon_unfold. cbn zeta.
  unfold mbind, M_bind, bind at 1.
  pose proof (for_return_attempts_ticks (b +:+ "/" +:+ (format_03d i +:+ ".png")) dir_name
                (format_03d i +:+ ".png") retry_count (range 0 retry_count) w) as Hloop.
  by destruct (for_return _ _ w) as [[[r|]|e] w1].
Qed.

Lemma attempt_at_requests_only dir_name url file_name w k e :
  requests_only env dir_name ->
  attempt_at env url (dir_name, file_name) w k = Raise e -> is_RequestException e = true.
Proof.
  intros [Hhttp Hwrite]. unfold attempt_at, attempt_outcome. rewrite Hwrite.
  destruct (http env url (sent url w + k)) as [response|e0] eqn:Hget.
  - destruct ((400 <=? status_code response) && (status_code response <? 600)); [| done].
    by intros [= <-].
  - intros [= <-]. by eapply Hhttp.
Qed.






Lemma run_tasks_Forall {A B} (task : A -> M B) (Q : Outcome B -> Prop) order w :
  (forall a w0, a ∈ order -> Q (task a w0).1) ->
  Forall Q (run_tasks task order w).1.
Proof.
  revert w. induction order as [|a order IH]; intros w HQ; cbn; [constructor |].
  pose proof (HQ a w ltac:(left)) as Ha. destruct (task a w) as [o w1].
  specialize (IH w1 ltac:(intros; apply HQ; by right)).
  destruct (run_tasks task order w1) as [os w2]. cbn in *. by constructor.
Qed.



End FetchPhase.


(** ** The transform task *)

Section TransformTask.
Context (env : Env) `{PIL}.

(** The task is the chain of the specification, with the Lanczos kernel for
    both resize steps and an optimised encoding. *)
Lemma process_single_image_run args w :
  process_single_image env args w = spec_transform_task env LANCZOS true args w.
Proof.
  destruct args as [[image dir_origin] dir_name].
  unfold process_single_image, spec_transform_task, transform_outcome, transformed,
    read_outcome, read_file, Image_save, write_file, os_path_join, spec_save_quality.
  unfold_monad. cbn.
  destruct (fs_error env (OpRead (dir_origin, image))) as [e|]; cbn; [done |].
  destruct (lookup _ _) as [data|]; cbn; [| done].
  destruct (Image_open data) as [img0|e]; cbn; [| done].
  destruct (Image_convert "RGB" img0) as [img1|e]; cbn; [| done].
  destruct (Image_filter (GaussianBlur 10) img1) as [img2|e]; cbn; [| done].
  destruct (ImageEnhance_Contrast (3 # 2) img2) as [img3|e]; cbn; [| done].
  destruct (Image_filter EDGE_ENHANCE_MORE img3) as [img4|e]; cbn; [| done].
  destruct (ImageOps_invert img4) as [img5|e]; cbn; [| done].
  destruct (Image_filter (GaussianBlur 5) img5) as [img6|e]; cbn; [| done].
  destruct (Image_size img6) as [width height]; cbn.
  destruct (Image_resize (width * 2, height * 2) LANCZOS img6) as [img7|e]; cbn; [| done].
  destruct (Image_resize (width, height) LANCZOS img7) as [img8|e]; cbn; [| done].
  destruct (Image_encode image 95 true img8) as [out|e]; cbn; [| done].
  by destruct (fs_error env (OpWrite (dir_name, image))) as [e|].
Qed.

Lemma process_single_image_returns args w :
  exists result w',
    process_single_image env args w = (Ok result, w') /\ result_shape result.
Proof.
  rewrite process_single_image_run. destruct args as [[image dir_origin] dir_name].
  unfold spec_transform_task, result_shape.
  destruct (transform_outcome env LANCZOS true image dir_origin dir_name w) as [out|e];
    eexists _, _; (split; [done |]); eauto.
Qed.


(** The loop of [process_pokemon] on results of one of the two shapes: no
    index is out of range, and every result is counted once. *)
Lemma collect_processed_shapes futures successful failed w :
  Forall (fun future => exists result, future = Ok result /\ result_shape result) futures ->
  exists counters,
    collect_processed futures successful failed w = (Ok counters, w)
    /\ counters.1 + Z.of_nat (length counters.2)
       = successful + Z.of_nat (length failed) + Z.of_nat (length futures).
Proof.
  intros Hall. revert successful failed.
  induction Hall as [|future futures (result & -> & Hshape) _ IH]; intros successful failed.
  - eexists. split; [done |]. cbn. lia.
  - destruct Hshape as [[image ->] | (image & message & ->)]; cbn [collect_processed].
    + destruct (IH (successful + 1) failed) as (counters & Hrun & Hsum).
      exists counters. split; [exact Hrun |]. rewrite Hsum. cbn [length]. lia.
    + destruct (IH successful (failed ++ [(PyStr image, PyStr message)])%list)
        as (counters & Hrun & Hsum).
      exists counters. split; [exact Hrun |]. rewrite Hsum, length_app. cbn [length]. lia.
Qed.

Lemma run_tasks_process_shapes order w :
  Forall (fun future => exists result, future = Ok result /\ result_shape result)
    (run_tasks (process_single_image env) order w).1.
Proof.
  apply run_tasks_Forall. intros args w0 _.
  destruct (process_single_image_returns args w0) as (result & w' & -> & Hshape).
  by exists result.
Qed.

(** C10. Every result of [process_single_image] is a pair [(True, name)] or
    a triple [(False, name, message)]; the loop of [process_pokemon] does not
    index a pair that starts with [True] beyond its first component, and on
    the results of the tasks it never raises: it returns its two counters,
    which count every result once. *)
Theorem process_results_shape order w :
  Forall (fun future => exists result, future = Ok result /\ result_shape result)
    (run_tasks (process_single_image env) order w).1
  /\ (forall image rest successful failed,
        collect_processed (Ok [PyBool true; PyStr image] :: rest) successful failed
        = collect_processed rest (successful + 1) failed)
  /\ (forall successful failed w0,
        exists counters,
          collect_processed (run_tasks (process_single_image env) order w).1
            successful failed w0 = (Ok counters, w0)
          /\ counters.1 + Z.of_nat (length counters.2)
             = successful + Z.of_nat (length failed) + Z.of_nat (length order)).
Proof.
  split; [apply run_tasks_process_shapes |]. split; [done |].
  intros successful failed w0.
  destruct (collect_processed_shapes _ successful failed w0 (run_tasks_process_shapes order w))
    as (counters & Hrun & Hsum).
  exists counters. split; [done |]. by rewrite Hsum, run_tasks_length.
Qed.

End TransformTask.

Example collect_processed_short_failure :
  (collect_processed [Ok [PyBool false; PyStr "001.png"]] 0 [] Demo.empty_world).1
  = Raise (Exn IndexError "tuple index out of range").
Proof. reflexivity. Qed.

(** ** Phase B *)

Section TransformPhase.
Context (env : Env) `{PIL} (dir_origin dir_name : string).

Abbreviation outcome_of image w :=
  (transform_outcome env LANCZOS true image dir_origin dir_name w).

Abbreviation task_of image := (image, dir_origin, dir_name) (only parsing).

(** The task reads nothing of the world but its input file. *)
Lemma transform_outcome_ext image w1 w2 :
  fs w1 !! (dir_origin, image) = fs w2 !! (dir_origin, image) ->
  outcome_of image w1 = outcome_of image w2.
Proof. intros Hsame. unfold transform_outcome, read_outcome. by rewrite Hsame. Qed.

Lemma process_single_image_result image w :
  (process_single_image env (task_of image) w).1 = Ok (task_result env image dir_origin dir_name w).
Proof.
  rewrite process_single_image_run. unfold spec_transform_task, task_result.
  by destruct (outcome_of image w).
Qed.

(** The task writes nothing but its output file, and only on success. *)
Lemma process_single_image_fs image w key :
  fs (process_single_image env (task_of image) w).2 !! key =
  match outcome_of image w with
  | Ok out => if decide ((dir_name, image) = key) then Some out else fs w !! key
  | Raise _ => fs w !! key
  end.
Proof.
  rewrite process_single_image_run. unfold spec_transform_task.
  destruct (outcome_of image w) as [out|e]; cbn; [| done].
  apply lookup_insert.
Qed.

(** The tasks of a batch do not see each other: each future holds the
    result its task has in the world before the batch, each successful task
    has written its output, and nothing else has changed. *)
Lemma run_tasks_process_batch images w0 w :
  NoDup images ->
  (forall x, x ∈ images -> fs w !! (dir_origin, x) = fs w0 !! (dir_origin, x)) ->
  let run := run_tasks (process_single_image env) (map (fun image => task_of image) images) w in
  run.1 = map (fun x => Ok (task_result env x dir_origin dir_name w0)) images
  /\ (forall x out, x ∈ images -> outcome_of x w0 = Ok out ->
        fs run.2 !! (dir_name, x) = Some out)
  /\ (forall key,
        (forall x out, x ∈ images -> outcome_of x w0 = Ok out -> (dir_name, x) <> key) ->
        fs run.2 !! key = fs w !! key).
Proof.
  intros Hnodup. revert w. induction Hnodup as [|a rest Hnotin Hnodup IH]; intros w Hagree;
    cbn zeta; cbn [map run_tasks].
  - split; [done |]. split; [| done]. intros x out Hin. by apply elem_of_nil in Hin.
  - pose proof (process_single_image_result a w) as Hres.
    pose proof (process_single_image_fs a w) as Hfs.
    rewrite (transform_outcome_ext a w w0) in Hfs by (apply Hagree; left).
    unfold task_result in Hres.
    rewrite (transform_outcome_ext a w w0) in Hres by (apply Hagree; left).
    fold (task_result env a dir_origin dir_name w0) in Hres.
    destruct (process_single_image env (task_of a) w) as [o w1]. cbn [fst snd] in Hres, Hfs.
    subst o.
    assert (forall x, x ∈ rest -> fs w1 !! (dir_origin, x) = fs w0 !! (dir_origin, x)) as Hagree1.
    { intros x Hx. rewrite Hfs, <- (Hagree x) by (by right).
      destruct (outcome_of a w0) as [out|e]; [| done].
      destruct (decide ((dir_name, a) = (dir_origin, x))) as [[= _ ->]|]; done. }
    destruct (IH w1 Hagree1) as (Hresults & Hwritten & Hframe).
    destruct (run_tasks (process_single_image env) (map (fun image => task_of image) rest) w1)
      as [os w2]. cbn [fst snd] in *.
    split; [by rewrite Hresults |]. split.
    + intros x out Hin Hout. apply elem_of_cons in Hin as [-> | Hin]; [| by eapply Hwritten].
      rewrite Hframe.
      * rewrite Hfs, Hout. by rewrite decide_True.
      * intros x out' Hx _ [= ->]. done.
    + intros key Hkey. rewrite Hframe.
      * rewrite Hfs. destruct (outcome_of a w0) as [out|e] eqn:Hout; [| done].
        rewrite decide_False; [done |]. eapply Hkey; [left | done].
      * intros x out Hx Hout. eapply Hkey; [by right | done].
Qed.



End TransformPhase.

Section TransformBatch.
Context (env : Env) `{PIL} (dir_origin dir_name : string).

Abbreviation outcome_in image w :=
  (transform_outcome env LANCZOS true image dir_origin dir_name w).


Lemma list_images_run w :
  fs_error env (OpListdir dir_origin) = None ->
  list_images env dir_origin w =
  (Ok (sorted (filter (fun f => endswith f ".png" = true) (dir_names dir_origin (fs w)))), w).
Proof. intros Hls. unfold list_images, os_listdir. unfold_monad. by rewrite Hls. Qed.





End TransformBatch.

(** ** Errors, isolation, input set and determinism *)







(** ** The sequential program *)

(** The loop body of [pokemon.py] runs the same chain and saves without the
    optimised encoding; it reports nothing. *)
Lemma baseline_process_image_run env `{PIL} image dir_origin dir_name w :
  (Baseline.process_image env image dir_origin dir_name w).1 = Ok tt
  /\ (Baseline.process_image env image dir_origin dir_name w).2
     = (spec_transform_task env LANCZOS false (image, dir_origin, dir_name) w).2.
Proof.
  unfold Baseline.process_image, spec_transform_task, transform_outcome, transformed,
    read_outcome, read_file, Image_save, write_file, os_path_join, spec_save_quality.
  unfold_monad. cbn.
  destruct (fs_error env (OpRead (dir_origin, image))) as [e|]; cbn; [done |].
  destruct (lookup _ _) as [data|]; cbn; [| done].
  destruct (Image_open data) as [img0|e]; cbn; [| done].
  destruct (Image_convert "RGB" img0) as [img1|e]; cbn; [| done].
  destruct (Image_filter (GaussianBlur 10) img1) as [img2|e]; cbn; [| done].
  destruct (ImageEnhance_Contrast (3 # 2) img2) as [img3|e]; cbn; [| done].
  destruct (Image_filter EDGE_ENHANCE_MORE img3) as [img4|e]; cbn; [| done].
  destruct (ImageOps_invert img4) as [img5|e]; cbn; [| done].
  destruct (Image_filter (GaussianBlur 5) img5) as [img6|e]; cbn; [| done].
  destruct (Image_size img6) as [width height]; cbn.
  destruct (Image_resize (width * 2, height * 2) LANCZOS img6) as [img7|e]; cbn; [| done].
  destruct (Image_resize (width, height) LANCZOS img7) as [img8|e]; cbn; [| done].
  destruct (Image_encode image 95 false img8) as [out|e]; cbn; [| done].
  by destruct (fs_error env (OpWrite (dir_name, image))) as [e|].
Qed.

(** With no item to fetch, the summary of [pokemon.py] divides by zero. *)
Lemma baseline_download_nothing env dir_name w :
  fs_error env (OpMakedirs dir_name) = None ->
  (Baseline.download_pokemon env 0 dir_name w).1
  = Raise (Exn ZeroDivisionError "float division by zero").
Proof.
  intros Hmk. unfold Baseline.download_pokemon, os_makedirs, time_time, divide.
  unfold_monad. by rewrite Hmk.
Qed.

(** C4. For every input, the transform task is the chain of the
    specification: decode, convert to RGB, Gaussian blur of radius 10,
    contrast by 1.5, edge enhance, invert, Gaussian blur of radius 5, resize
    to twice the width and height, resize back to the size before the
    upscale with the same kernel (Lanczos), then save with quality 95 under
    the same file name in the output directory; the loop body of the
    sequential program writes what the same chain gives. *)
Theorem process_single_image_chain env `{PIL} image dir_origin dir_name w :
  process_single_image env (image, dir_origin, dir_name) w
  = spec_transform_task env LANCZOS true (image, dir_origin, dir_name) w
  /\ (Baseline.process_image env image dir_origin dir_name w).2
     = (spec_transform_task env LANCZOS false (image, dir_origin, dir_name) w).2.
Proof.
  split; [apply process_single_image_run | apply baseline_process_image_run].
Qed.

(** ** The two phases on concrete worlds *)








(** The scenario of the specification: ids 1 and 2 are fetched, id 3 fails
    after its retries; the transform phase then finds two files and
    transforms both. *)
Example end_to_end :
  ((a ← download_pokemon Demo.flaky_env 3 "pokemon_dataset" IO_WORKERS;
    b ← process_pokemon Demo.flaky_env (H := Demo.toy_PIL) "pokemon_dataset"
          "pokemon_processed" MAX_CPU_WORKERS;
    mret (successful_downloads a, failed_downloads a, total b, successful_processing b,
          failed_processing b)) Demo.empty_world).1
  = Ok (2, ["003.png"], 2%nat, 2, []).
Proof. vm_compute. reflexivity. Qed.

(** The input of the transform phase is the directory, not the successes of
    the fetch phase: with a copy of [003.png] left by an earlier run, the
    fetch of id 3 fails and the transform phase still processes three
    files. *)
Example phases_decoupled :
  ((a ← download_pokemon Demo.flaky_env 3 "pokemon_dataset" IO_WORKERS;
    b ← process_pokemon Demo.flaky_env (H := Demo.toy_PIL) "pokemon_dataset"
          "pokemon_processed" MAX_CPU_WORKERS;
    mret (successful_downloads a, total b)) Demo.stale_world).1
  = Ok (2, 3%nat).
Proof. vm_compute. reflexivity. Qed.

(** ** Tasks that work on distinct files and URLs *)

Lemma run_tasks_map {A A' B} (f : A -> A') (task : A' -> M B) order w :
  run_tasks task (map f order) w = run_tasks (fun a => task (f a)) order w.
Proof.
  revert w. induction order as [|a order IH]; intros w; cbn; [done |].
  destruct (task (f a) w) as [o w1]. by rewrite IH.
Qed.

Lemma run_tasks_worlds {A B B'} (task1 : A -> M B) (task2 : A -> M B') order w :
  (forall a w0, (task1 a w0).2 = (task2 a w0).2) ->
  (run_tasks task1 order w).2 = (run_tasks task2 order w).2.
Proof.
  intros Hsame. revert w. induction order as [|a order IH]; intros w; cbn; [done |].
  pose proof (Hsame a w) as Ha.
  destruct (task1 a w) as [o1 w1], (task2 a w) as [o2 w2]. cbn in Ha. subst w2.
  specialize (IH w1).
  by destruct (run_tasks task1 order w1), (run_tasks task2 order w1).
Qed.

(** A loop whose body never raises runs its body on every element. *)
Lemma for_each_run_tasks {A} (body : A -> M unit) xs w :
  (forall a w0, (body a w0).1 = Ok tt) ->
  for_each xs body w = (Ok tt, (run_tasks body xs w).2).
Proof.
  intros Hbody. revert w. induction xs as [|x xs IH]; intros w; cbn; [done |].
  unfold mbind, M_bind, bind. pose proof (Hbody x w) as Hx.
  destruct (body x w) as [o w1]. cbn in Hx. subst o.
  rewrite IH. by destruct (run_tasks body xs w1).
Qed.

Section IndependentTasks.
Context {A B : Type} (task : A -> M B).
Context (key : A -> path) (url : A -> string).
Context (res : A -> World -> Outcome B) (out : A -> World -> option bytes)
        (req : A -> World -> nat).

(** The task of [a] depends on the world through the number of requests
    already sent to its URL; it may write its file, and it counts its
    requests. *)
Hypothesis res_ext : forall a w w', sent (url a) w = sent (url a) w' -> res a w = res a w'.
Hypothesis out_ext : forall a w w', sent (url a) w = sent (url a) w' -> out a w = out a w'.
Hypothesis req_ext : forall a w w', sent (url a) w = sent (url a) w' -> req a w = req a w'.
Hypothesis task_res : forall a w, (task a w).1 = res a w.
Hypothesis task_fs : forall a w,
  fs (task a w).2 = match out a w with Some data => <[key a := data]> (fs w) | None => fs w end.
Hypothesis task_calls : forall a w,
  calls (task a w).2 = <[url a := (sent (url a) w + req a w)%nat]> (calls w).
Hypothesis task_ticks : forall a w, ticks (task a w).2 = ticks w.

(** The tasks of a batch on distinct files and URLs do not see each other. *)
Lemma run_tasks_independent order w0 w :
  NoDup (map url order) ->
  NoDup (map key order) ->
  (forall a, a ∈ order -> sent (url a) w = sent (url a) w0) ->
  let run := run_tasks task order w in
  run.1 = map (fun a => res a w0) order
  /\ (forall a data, a ∈ order -> out a w0 = Some data -> fs run.2 !! key a = Some data)
  /\ (forall k, (forall a data, a ∈ order -> out a w0 = Some data -> key a <> k) ->
        fs run.2 !! k = fs w !! k)
  /\ (forall a, a ∈ order ->
        calls run.2 !! url a = Some (sent (url a) w0 + req a w0)%nat)
  /\ (forall u, (forall a, a ∈ order -> url a <> u) -> calls run.2 !! u = calls w !! u)
  /\ ticks run.2 = ticks w.
Proof.
  revert w. induction order as [|a order IH]; intros w Hurls Hkeys Hagree; cbn zeta;
    cbn [map run_tasks].
  - repeat split; try done; intros;
      match goal with Hin : _ ∈ [] |- _ => by apply elem_of_nil in Hin end.
  - cbn [map] in Hurls, Hkeys.
    apply NoDup_cons in Hurls as [Hurl Hurls]. apply NoDup_cons in Hkeys as [Hkey Hkeys].
    pose proof (task_res a w) as Hres. pose proof (task_fs a w) as Hfs.
    pose proof (task_calls a w) as Hcalls. pose proof (task_ticks a w) as Hticks.
    assert (sent (url a) w = sent (url a) w0) as Ha by (apply Hagree; left).
    rewrite (res_ext a w w0 Ha) in Hres. rewrite (out_ext a w w0 Ha) in Hfs.
    rewrite (req_ext a w w0 Ha), Ha in Hcalls.
    destruct (task a w) as [o w1]. cbn [fst snd] in Hres, Hfs, Hcalls, Hticks. subst o.
    assert (forall x, x ∈ order -> url x <> url a) as Hother.
    { intros x Hx Heq. apply Hurl. rewrite <- Heq. apply list_elem_of_fmap. by exists x. }
    assert (forall x, x ∈ order -> key x <> key a) as Hotherkey.
    { intros x Hx Heq. apply Hkey. rewrite <- Heq. apply list_elem_of_fmap. by exists x. }
    assert (forall x, x ∈ order -> sent (url x) w1 = sent (url x) w0) as Hagree1.
    { intros x Hx. rewrite <- (Hagree x) by (by right). unfold sent. rewrite Hcalls.
      rewrite lookup_insert_ne; [done |]. intros Heq. by apply (Hother x Hx). }
    destruct (IH w1 Hurls Hkeys Hagree1) as (Hresults & Hwritten & Hframe & Hsent & Hrest & Ht).
    destruct (run_tasks task order w1) as [os w2]. cbn [fst snd] in *.
    split; [by rewrite Hresults |]. split; [| split; [| split; [| split]]].
    + intros x data Hin Hout. apply elem_of_cons in Hin as [-> | Hin]; [| by eapply Hwritten].
      rewrite Hframe.
      * rewrite Hfs, Hout. apply lookup_insert_eq.
      * intros x data' Hx _. by apply Hotherkey.
    + intros k Hk. rewrite Hframe.
      * rewrite Hfs. destruct (out a w0) as [data|] eqn:Hout; [| done].
        rewrite lookup_insert_ne; [done |]. eapply Hk; [left | done].
      * intros x data Hx Hout. eapply Hk; [by right | done].
    + intros x Hin. apply elem_of_cons in Hin as [-> | Hin]; [| by apply Hsent].
      rewrite Hrest.
      * rewrite Hcalls. apply lookup_insert_eq.
      * intros x Hx. by apply Hother.
    + intros u Hu. rewrite Hrest.
      * rewrite Hcalls. rewrite lookup_insert_ne; [done |]. apply Hu. left.
      * intros x Hx. apply Hu. by right.
    + by rewrite Ht.
Qed.

(** The order in which the tasks of the batch run does not show in the
    files, in the count of the requests or in the clock. *)
Lemma run_tasks_independent_order order1 order2 w :
  order1 ≡ₚ order2 ->
  NoDup (map url order1) ->
  NoDup (map key order1) ->
  fs (run_tasks task order1 w).2 = fs (run_tasks task order2 w).2
  /\ calls (run_tasks task order1 w).2 = calls (run_tasks task order2 w).2
  /\ ticks (run_tasks task order1 w).2 = ticks (run_tasks task order2 w).2.
Proof.
  intros Hperm Hurls Hkeys.
  assert (NoDup (map url order2)) as Hurls2 by (by rewrite <- Hperm).
  assert (NoDup (map key order2)) as Hkeys2 by (by rewrite <- Hperm).
  destruct (run_tasks_independent order1 w w Hurls Hkeys ltac:(done))
    as (_ & Hw1 & Hf1 & Hs1 & Hr1 & Ht1).
  destruct (run_tasks_independent order2 w w Hurls2 Hkeys2 ltac:(done))
    as (_ & Hw2 & Hf2 & Hs2 & Hr2 & Ht2).
  cbn zeta in *. split; [| split; [| congruence]].
  - apply map_eq. intros k.
    destruct (decide (Exists (fun a => key a = k /\ is_Some (out a w)) order1))
      as [Hex | Hnone].
    + apply Exists_exists in Hex as (a & Hin & <- & data & Hout).
      rewrite (Hw1 a data Hin Hout). symmetry. apply (Hw2 a data); [by rewrite <- Hperm | done].
    + rewrite Hf1, Hf2; [done | |].
      * intros a data Hin Hout Heq. apply Hnone, Exists_exists. exists a.
        split; [by rewrite Hperm |]. split; [done | by exists data].
      * intros a data Hin Hout Heq. apply Hnone, Exists_exists. exists a.
        split; [done |]. split; [done | by exists data].
  - apply map_eq. intros u.
    destruct (decide (Exists (fun a => url a = u) order1)) as [Hex | Hnone].
    + apply Exists_exists in Hex as (a & Hin & <-).
      rewrite (Hs1 a Hin). symmetry. apply Hs2. by rewrite <- Hperm.
    + rewrite Hr1, Hr2; [done | |].
      * intros a Hin Heq. apply Hnone, Exists_exists. exists a. split; [by rewrite Hperm | done].
      * intros a Hin Heq. apply Hnone, Exists_exists. by exists a.
Qed.

End IndependentTasks.

(** ** Items, their names and their URLs *)

Lemma string_app_inj_l s t1 t2 : s +:+ t1 = s +:+ t2 -> t1 = t2.
Proof.
  induction s as [|c s IH]; [done |].
  change (String c (s +:+ t1) = String c (s +:+ t2) -> t1 = t2).
  intros [= Heq]. by apply IH.
Qed.

Lemma item_name_inj i j : 0 <= i -> 0 <= j -> item_name i = item_name j -> i = j.
Proof.
  intros Hi Hj Heq. apply string_app_inj_r in Heq. by apply format_03d_inj.
Qed.

Lemma item_url_inj b i j : 0 <= i -> 0 <= j -> item_url b i = item_url b j -> i = j.
Proof.
  intros Hi Hj Heq. unfold item_url in Heq.
  apply string_app_inj_l in Heq. apply (string_app_inj_l "/") in Heq. by apply item_name_inj.
Qed.

Lemma NoDup_item_urls b ids :
  NoDup ids -> (forall i, i ∈ ids -> 0 <= i) -> NoDup (map (item_url b) ids).
Proof.
  intros Hnodup Hpos. apply NoDup_fmap_2_strong; [| done].
  intros i j Hi Hj. apply item_url_inj; by apply Hpos.
Qed.

Lemma NoDup_item_keys (dir_name : string) ids :
  NoDup ids -> (forall i, i ∈ ids -> 0 <= i) ->
  NoDup (map (fun i => (dir_name, item_name i)) ids).
Proof.
  intros Hnodup Hpos. apply NoDup_fmap_2_strong; [| done].
  intros i j Hi Hj [= Heq]. apply item_name_inj; (done || by apply Hpos).
Qed.

(** ** The fetch tasks of the three versions *)

Section FetchTasks.
Context (env : Env).

Lemma attempt_at_ext url p w w' k :
  sent url w = sent url w' -> attempt_at env url p w k = attempt_at env url p w' k.
Proof. intros Hsent. unfold attempt_at. by rewrite Hsent. Qed.

(** The task of [pokemon_optimizado2.py] with its two attempts. *)
Lemma download_single_pokemon_two i dir_name b w :
  let url := item_url b i in
  let p := (dir_name, item_name i) in
  download_single_pokemon env (i, dir_name, b, 2) w =
  match attempt_at env url p w 0 with
  | Ok data => (Ok (true, item_name i), after_write p data (after_get url w))
  | Raise e =>
      if is_RequestException e
      then
        let w1 := after_get url (after_sleep (after_get url w)) in
        match attempt_at env url p w 1 with
        | Ok data => (Ok (true, item_name i), after_write p data w1)
        | Raise e' =>
            if is_RequestException e'
            then (Ok (false, item_name i), w1)
            else (Raise e', w1)
        end
      else (Raise e, after_get url w)
  end.
Proof.
  intros url p. rewrite download_single_pokemon_unfold. cbn zeta.
  fold (item_name i). fold (item_url b i). fold url.
  change (range 0 2) with [0; 1]. cbn [for_return].
  unfold mbind, M_bind, bind at 1. unfold bind at 1. rewrite attempt_body_run. fold p.
  destruct (attempt_at env url p w 0) as [data|e]; [done |].
  destruct (is_RequestException e); [| done].
  change (0 =? 2 - 1) with false. cbn iota.
  unfold bind at 1. rewrite attempt_body_run. fold p. rewrite attempt_at_after_failure.
  destruct (attempt_at env url p w 1) as [data|e']; [done |].
  destruct (is_RequestException e'); [| done].
  by change (1 =? 2 - 1) with true.
Qed.

Lemma download_single_pokemon_result i dir_name b w :
  (download_single_pokemon env (i, dir_name, b, 2) w).1 = fetch_result env b dir_name i w.
Proof.
  rewrite download_single_pokemon_two. unfold fetch_result, fetch_outcome. cbn zeta.
  destruct (attempt_at env (item_url b i) (dir_name, item_name i) w 0) as [data|e]; [done |].
  destruct (is_RequestException e) eqn:He; [| by rewrite He].
  destruct (attempt_at env (item_url b i) (dir_name, item_name i) w 1) as [data|e']; [done |].
  by destruct (is_RequestException e').
Qed.

Lemma download_single_pokemon_files i dir_name b w :
  fs (download_single_pokemon env (i, dir_name, b, 2) w).2 =
  match fetch_outcome env b dir_name i w with
  | Ok data => <[(dir_name, item_name i) := data]> (fs w)
  | Raise _ => fs w
  end.
Proof.
  rewrite download_single_pokemon_two. unfold fetch_outcome. cbn zeta.
  destruct (attempt_at env (item_url b i) (dir_name, item_name i) w 0) as [data|e]; [done |].
  destruct (is_RequestException e) eqn:He; [| done].
  destruct (attempt_at env (item_url b i) (dir_name, item_name i) w 1) as [data|e']; [done |].
  by destruct (is_RequestException e').
Qed.

Lemma download_single_pokemon_calls i dir_name b w :
  calls (download_single_pokemon env (i, dir_name, b, 2) w).2 =
  <[item_url b i := (sent (item_url b i) w + fetch_requests env b dir_name i w)%nat]> (calls w).
Proof.
  rewrite download_single_pokemon_two. unfold fetch_requests. cbn zeta.
  assert (calls (after_get (item_url b i) (after_sleep (after_get (item_url b i) w)))
          = <[item_url b i := (sent (item_url b i) w + 2)%nat]> (calls w)) as Htwo.
  { unfold after_get at 1. cbn [calls].
    replace (sent (item_url b i) (after_sleep (after_get (item_url b i) w)))
      with (S (sent (item_url b i) w)) by (symmetry; apply sent_after_get).
    cbn [after_sleep after_get calls]. rewrite insert_insert_eq. f_equal. lia. }
  assert (calls (after_get (item_url b i) w)
          = <[item_url b i := (sent (item_url b i) w + 1)%nat]> (calls w)) as Hone.
  { cbn [after_get calls]. f_equal. lia. }
  destruct (attempt_at env (item_url b i) (dir_name, item_name i) w 0) as [data|e]; [done |].
  destruct (is_RequestException e) eqn:He; [| done].
  destruct (attempt_at env (item_url b i) (dir_name, item_name i) w 1) as [data|e']; [done |].
  by destruct (is_RequestException e').
Qed.

Lemma fetch_outcome_ext b dir_name i w w' :
  sent (item_url b i) w = sent (item_url b i) w' ->
  fetch_outcome env b dir_name i w = fetch_outcome env b dir_name i w'.
Proof.
  intros Hsent. unfold fetch_outcome.
  by rewrite !(attempt_at_ext _ _ w w' _ Hsent).
Qed.

(** The one attempt of [pokemon_optimizado1.py]. *)
Lemma optimizado1_download_single_pokemon_run i dir_name b w :
  let url := item_url b i in
  let p := (dir_name, item_name i) in
  Optimizado1.download_single_pokemon env (i, dir_name, b) w =
  match attempt_at env url p w 0 with
  | Ok data => (Ok true, after_write p data (after_request url None w))
  | Raise e =>
      if is_RequestException e
      then (Ok false, after_request url None w)
      else (Raise e, after_request url None w)
  end.
Proof.
  intros url p.
  unfold Optimizado1.download_single_pokemon, attempt_at, attempt_outcome, requests_get,
    raise_for_status, write_file, os_path_join.
  fold (item_name i). fold (item_url b i). fold url. fold p.
  rewrite Nat.add_0_r.
  unfold_monad. fold (sent url w). fold (after_request url None w).
  destruct (http env url (sent url w)) as [response|e]; cbn.
  - destruct ((400 <=? status_code response) && (status_code response <? 600)); cbn; [done |].
    destruct (fs_error env (OpWrite p)) as [e|]; cbn; [| done].
    by destruct (is_RequestException e).
  - by destruct (is_RequestException e).
Qed.

(** The body of the loop of [pokemon.py] does to the world what the task of
    [pokemon_optimizado1.py] does, and raises when the task raises. *)
Lemma download_body_run dir_name i w :
  let url := item_url base_url i in
  let p := (dir_name, item_name i) in
  download_body env dir_name i w =
  match attempt_at env url p w 0 with
  | Ok data => (Ok tt, after_write p data (after_request url None w))
  | Raise e =>
      if is_RequestException e
      then (Ok tt, after_request url None w)
      else (Raise e, after_request url None w)
  end.
Proof.
  intros url p.
  unfold download_body, attempt_at, attempt_outcome, requests_get,
    raise_for_status, write_file, os_path_join.
  fold (item_name i). fold (item_url base_url i). fold url. fold p.
  rewrite Nat.add_0_r.
  unfold_monad. fold (sent url w). fold (after_request url None w).
  destruct (http env url (sent url w)) as [response|e]; cbn.
  - destruct ((400 <=? status_code response) && (status_code response <? 600)); cbn; [done |].
    destruct (fs_error env (OpWrite p)) as [e|]; cbn; [| done].
    by destruct (is_RequestException e).
  - by destruct (is_RequestException e).
Qed.

End FetchTasks.

(** ** Phase A on every batch *)

Section FetchBatch.
Context (env : Env) (dir_name : string).

Abbreviation fetched i w := (fetch_outcome env base_url dir_name i w).

Lemma fetch_requests_ext b i w w' :
  sent (item_url b i) w = sent (item_url b i) w' ->
  fetch_requests env b dir_name i w = fetch_requests env b dir_name i w'.
Proof. intros Hsent. unfold fetch_requests. by rewrite (attempt_at_ext _ _ _ w w' _ Hsent). Qed.

Lemma fetch_result_ext b i w w' :
  sent (item_url b i) w = sent (item_url b i) w' ->
  fetch_result env b dir_name i w = fetch_result env b dir_name i w'.
Proof. intros Hsent. unfold fetch_result. by rewrite (fetch_outcome_ext _ _ _ _ w w' Hsent). Qed.

Lemma fetch_outcome_requests_only b i w e :
  requests_only env dir_name ->
  fetch_outcome env b dir_name i w = Raise e -> is_RequestException e = true.
Proof.
  intros Henv. unfold fetch_outcome.
  destruct (attempt_at env (item_url b i) (dir_name, item_name i) w 0) as [data|e0] eqn:H0; [done |].
  rewrite (attempt_at_requests_only env _ _ _ _ _ _ Henv H0).
  intros H1. by eapply attempt_at_requests_only.
Qed.

(** The tasks of the phase do not see each other. *)
Lemma run_tasks_download_batch ids w0 w :
  NoDup ids ->
  (forall i, i ∈ ids -> 0 <= i) ->
  (forall i, i ∈ ids -> sent (item_url base_url i) w = sent (item_url base_url i) w0) ->
  let run := run_tasks (download_single_pokemon env)
               (map (fun i => (i, dir_name, base_url, 2)) ids) w in
  run.1 = map (fun i => fetch_result env base_url dir_name i w0) ids
  /\ (forall i data, i ∈ ids -> fetched i w0 = Ok data ->
        fs run.2 !! (dir_name, item_name i) = Some data)
  /\ (forall k, (forall i data, i ∈ ids -> fetched i w0 = Ok data -> (dir_name, item_name i) <> k) ->
        fs run.2 !! k = fs w !! k)
  /\ (forall i, i ∈ ids ->
        calls run.2 !! item_url base_url i
        = Some (sent (item_url base_url i) w0 + fetch_requests env base_url dir_name i w0)%nat)
  /\ (forall u, (forall i, i ∈ ids -> item_url base_url i <> u) -> calls run.2 !! u = calls w !! u)
  /\ ticks run.2 = ticks w.
Proof.
  intros Hnodup Hpos Hagree. cbn zeta. rewrite run_tasks_map.
  destruct (run_tasks_independent
              (fun i => download_single_pokemon env (i, dir_name, base_url, 2))
              (fun i => (dir_name, item_name i)) (item_url base_url)
              (fetch_result env base_url dir_name)
              (fun i w => match fetched i w with Ok data => Some data | Raise _ => None end)
              (fetch_requests env base_url dir_name)) with (order := ids) (w0 := w0) (w := w)
    as (Hres & Hwritten & Hframe & Hsent & Hrest & Hticks).
  - intros i w1 w2. apply fetch_result_ext.
  - intros i w1 w2 Hs. by rewrite (fetch_outcome_ext env base_url dir_name i w1 w2 Hs).
  - intros i w1 w2. apply fetch_requests_ext.
  - intros i w1. apply download_single_pokemon_result.
  - intros i w1. rewrite download_single_pokemon_files. by destruct (fetched i w1).
  - intros i w1. apply download_single_pokemon_calls.
  - intros i w1. apply download_single_pokemon_ticks.
  - by apply NoDup_item_urls.
  - by apply NoDup_item_keys.
  - done.
  - split; [done |]. split; [| split; [| done]].
    + intros i data Hin Hout. apply (Hwritten i data Hin). by rewrite Hout.
    + intros k Hk. apply Hframe. intros i data Hin Hout.
      apply (Hk i data Hin). by destruct (fetched i w0) as [d|]; [injection Hout as -> |].
Qed.

(** The loop over the futures when no task has raised. *)
Lemma collect_downloads_results order w0 successful failed w :
  requests_only env dir_name ->
  collect_downloads (map (fun i => fetch_result env base_url dir_name i w0) order)
    successful failed w
  = (Ok (successful + Z.of_nat (length order)
         - Z.of_nat (length (fetch_failures env base_url dir_name w0 order)),
         (failed ++ fetch_failures env base_url dir_name w0 order)%list), w).
Proof.
  intros Henv. revert successful failed.
  induction order as [|i order IH]; intros successful failed; cbn [map collect_downloads].
  - cbn. rewrite app_nil_r. unfold mret, M_ret, ret. do 3 f_equal. lia.
  - unfold fetch_failures. cbn [omap list_omap]. fold (fetch_failures env base_url dir_name w0 order).
    unfold fetch_result.
    destruct (fetched i w0) as [data|e] eqn:Hout.
    + rewrite IH. do 3 f_equal. cbn [length]. lia.
    + rewrite (fetch_outcome_requests_only _ _ _ _ Henv Hout). rewrite IH.
      rewrite <- app_assoc. cbn [app]. do 3 f_equal. cbn [length]. lia.
Qed.

(** What the phase comes to, for every [n], every number of workers and
    every order of completion. *)
Lemma download_pokemon_run n max_workers w :
  1 <= max_workers ->
  fs_error env (OpMakedirs dir_name) = None ->
  requests_only env dir_name ->
  let ids := range 1 (n + 1) in
  let total_time := (clock env (S (ticks w)) - clock env (ticks w))%Q in
  exists order w',
    order ≡ₚ ids
    /\ download_pokemon env n dir_name max_workers w
       = (if Qeq_bool total_time 0
          then Raise (Exn ZeroDivisionError "float division by zero")
          else Ok (mkDownloadReport total_time
                     (Z.of_nat (length ids)
                      - Z.of_nat (length (fetch_failures env base_url dir_name w order)))
                     (fetch_failures env base_url dir_name w order)), w')
    /\ (forall i data, i ∈ ids -> fetched i w = Ok data ->
          fs w' !! (dir_name, item_name i) = Some data)
    /\ (forall k,
          (forall i data, i ∈ ids -> fetched i w = Ok data -> (dir_name, item_name i) <> k) ->
          fs w' !! k = fs w !! k)
    /\ (forall i, i ∈ ids ->
          calls w' !! item_url base_url i
          = Some (sent (item_url base_url i) w + fetch_requests env base_url dir_name i w)%nat)
    /\ (forall u, (forall i, i ∈ ids -> item_url base_url i <> u) -> calls w' !! u = calls w !! u)
    /\ ticks w' = S (S (ticks w)).
Proof.
  intros Hmw Hmk Henv ids total_time. unfold download_pokemon.
  erewrite bind_ok; [| by unfold os_makedirs; rewrite Hmk].
  erewrite bind_ok; [| reflexivity].
  erewrite bind_ok; [| by apply executor_futures_run].
  set (w1 := mkWorld (fs w) (calls w) (S (ticks w)) (log w)).
  pose proof (as_completed_Permutation (Z.to_nat max_workers) (choices env)
                (map (fun i => (i, dir_name, base_url, 2)) (range 1 (n + 1))) ltac:(lia)) as Hperm.
  apply Permutation_map_inv in Hperm as (order & Horder & Hperm).
  rewrite Horder. fold ids in Hperm. symmetry in Hperm.
  assert (NoDup order) as Hnodup by (rewrite Hperm; apply NoDup_range).
  assert (forall i, i ∈ order -> 0 <= i) as Hpos.
  { intros i Hi. rewrite Hperm in Hi. apply elem_of_range in Hi. lia. }
  destruct (run_tasks_download_batch order w w1 Hnodup Hpos ltac:(done))
    as (Hres & Hwritten & Hframe & Hsent & Hrest & Hticks).
  destruct (run_tasks (download_single_pokemon env)
              (map (fun i => (i, dir_name, base_url, 2)) order) w1) as [futures w2].
  cbn [fst snd] in *. subst futures.
  erewrite bind_ok; [| by apply collect_downloads_results].
  erewrite bind_ok; [| reflexivity].
  rewrite Hticks. cbn [ticks w1]. fold total_time.
  exists order, (mkWorld (fs w2) (calls w2) (S (S (ticks w))) (log w2)).
  split; [done |]. split.
  - unfold divide. unfold_monad. cbn [fst snd].
    destruct (Qeq_bool total_time 0); [done |].
    pose proof (Permutation_length Hperm) as Hlen. do 3 f_equal. lia.
  - cbn [fs calls ticks log]. split; [| split; [| split; [| split; [| done]]]].
    + intros i data Hin. apply Hwritten. by rewrite Hperm.
    + intros k Hk. apply Hframe. intros i data Hin. apply Hk. by rewrite <- Hperm.
    + intros i Hin. apply Hsent. by rewrite Hperm.
    + intros u Hu. apply Hrest. intros i Hin. apply Hu. by rewrite <- Hperm.
Qed.

End FetchBatch.

(** ** Phase B on every batch *)

Section TransformEveryBatch.
Context (env : Env) `{PIL} (dir_origin dir_name : string).

Abbreviation transform_of image w :=
  (transform_outcome env LANCZOS true image dir_origin dir_name w).

(** The loop over the futures of a batch. *)
Lemma collect_processed_results order w0 successful failed w :
  collect_processed (map (fun x => Ok (task_result env x dir_origin dir_name w0)) order)
    successful failed w
  = (Ok (successful + Z.of_nat (length order)
         - Z.of_nat (length (transform_failures env dir_origin dir_name w0 order)),
         (failed ++ transform_failures env dir_origin dir_name w0 order)%list), w).
Proof.
  revert successful failed.
  induction order as [|x order IH]; intros successful failed; cbn [map].
  - cbn. rewrite app_nil_r. unfold mret, M_ret, ret. do 3 f_equal. lia.
  - unfold transform_failures. cbn [omap list_omap].
    fold (transform_failures env dir_origin dir_name w0 order).
    unfold task_result at 1.
    destruct (transform_of x w0) as [out|e].
    + change (collect_processed (Ok [PyBool true; PyStr x] :: ?l) successful failed)
        with (collect_processed l (successful + 1) failed).
      rewrite IH. do 3 f_equal. cbn [length]. lia.
    + change (collect_processed (Ok [PyBool false; PyStr x; PyStr (str e)] :: ?l)
                successful failed)
        with (collect_processed l successful (failed ++ [(PyStr x, PyStr (str e))])).
      rewrite IH. rewrite <- app_assoc. cbn [app]. do 3 f_equal. cbn [length]. lia.
Qed.

(** A transform task sends no request and reads no clock. *)
Lemma process_single_image_quiet args w :
  let w' := (process_single_image env args w).2 in
  calls w' = calls w /\ ticks w' = ticks w /\ log w' = log w.
Proof.
  cbn zeta. rewrite process_single_image_run. destruct args as [[image d] d'].
  unfold spec_transform_task. by destruct (transform_outcome env LANCZOS true image d d' w).
Qed.

(** What the phase comes to, for every state of the input directory, every
    number of workers and every order of completion. *)
Lemma process_pokemon_run max_workers w :
  1 <= max_workers ->
  fs_error env (OpMakedirs dir_name) = None ->
  fs_error env (OpListdir dir_origin) = None ->
  let images := images_of dir_origin w in
  let total_time := (clock env (S (ticks w)) - clock env (ticks w))%Q in
  exists order w',
    order ≡ₚ images
    /\ process_pokemon env dir_origin dir_name max_workers w
       = (if Qeq_bool total_time 0
          then Raise (Exn ZeroDivisionError "float division by zero")
          else Ok (mkProcessReport total_time (length images)
                     (Z.of_nat (length images)
                      - Z.of_nat (length (transform_failures env dir_origin dir_name w order)))
                     (transform_failures env dir_origin dir_name w order)), w')
    /\ (forall image out, image ∈ images -> transform_of image w = Ok out ->
          fs w' !! (dir_name, image) = Some out)
    /\ (forall k,
          (forall image out, image ∈ images -> transform_of image w = Ok out ->
             (dir_name, image) <> k) ->
          fs w' !! k = fs w !! k)
    /\ calls w' = calls w
    /\ log w' = log w
    /\ ticks w' = S (S (ticks w)).
Proof.
  intros Hmw Hmk Hls images total_time. unfold process_pokemon.
  erewrite bind_ok; [| by unfold os_makedirs; rewrite Hmk].
  erewrite bind_ok; [| by apply list_images_run].
  fold (images_of dir_origin w). fold images.
  erewrite bind_ok; [| reflexivity].
  erewrite bind_ok; [| by apply executor_futures_run].
  set (w1 := mkWorld (fs w) (calls w) (S (ticks w)) (log w)).
  pose proof (as_completed_Permutation (Z.to_nat max_workers) (choices env)
                (map (fun image => (image, dir_origin, dir_name)) images) ltac:(lia)) as Hperm.
  apply Permutation_map_inv in Hperm as (order & Horder & Hperm).
  rewrite Horder. symmetry in Hperm.
  assert (NoDup order) as Hnodup.
  { rewrite Hperm. apply (images_of_directory dir_origin (fs w)). }
  destruct (run_tasks_process_batch env dir_origin dir_name order w w1 Hnodup ltac:(done))
    as (Hresults & Hwritten & Hframe).
  assert (let w' := (run_tasks (process_single_image env)
                       (map (fun image => (image, dir_origin, dir_name)) order) w1).2 in
          calls w' = calls w /\ ticks w' = S (ticks w) /\ log w' = log w) as Hquiet.
  { apply (run_tasks_preserves _
             (fun w0 => calls w0 = calls w /\ ticks w0 = S (ticks w) /\ log w0 = log w));
      [| done].
    intros args w0 (<- & <- & <-). apply process_single_image_quiet. }
  destruct (run_tasks (process_single_image env)
              (map (fun image => (image, dir_origin, dir_name)) order) w1) as [futures w2].
  cbn [fst snd] in *. subst futures. destruct Hquiet as (Hcalls & Hticks & Hlog).
  erewrite bind_ok; [| by apply collect_processed_results].
  erewrite bind_ok; [| reflexivity].
  rewrite Hticks. fold total_time.
  exists order, (mkWorld (fs w2) (calls w2) (S (S (ticks w))) (log w2)).
  split; [done |]. split.
  - unfold divide. unfold_monad. cbn [fst snd].
    destruct (Qeq_bool total_time 0); [done |].
    pose proof (Permutation_length Hperm) as Hlen. do 3 f_equal. lia.
  - cbn [fs calls ticks log]. split; [| split; [| done]].
    + intros image out Hin. apply Hwritten. by rewrite Hperm.
    + intros k Hk. apply Hframe. intros image out Hin. apply Hk. by rewrite <- Hperm.
Qed.


End TransformEveryBatch.

(** ** The names of the items are images *)

Lemma substring_all t : String.substring 0 (String.length t) t = t.
Proof. induction t as [|c t IH]; [done |]. cbn. by rewrite IH. Qed.

Lemma substring_app_r s t :
  String.substring (String.length s) (String.length t) (s +:+ t) = t.
Proof.
  induction s as [|c s IH]; [apply substring_all |].
  change (String c s +:+ t) with (String c (s +:+ t)). cbn [String.length String.substring].
  exact IH.
Qed.

Lemma endswith_app s t : endswith (s +:+ t) t = true.
Proof.
  unfold endswith. rewrite string_length_app.
  destruct (Nat.leb_spec (String.length t) (String.length s + String.length t)); [| lia].
  replace (String.length s + String.length t - String.length t)%nat with (String.length s) by lia.
  rewrite substring_app_r. apply String.eqb_refl.
Qed.


(** ** The chunk task, the two phases and [main] *)




(** X8. [main] from end to end, when a request raises nothing but exceptions
    of the request classes, no write to the dataset raises, the two
    directories can be made and the dataset can be listed, and each phase
    sees the clock advance.  It returns the time between its first and its
    last clock reading, the sixth of the run.  For every item of [1..150]
    that is fetched, the dataset holds the data received and, when that data
    can be read, transforms and can be written, the output directory holds
    the transform of that data under the same name; the file of an item that
    is not fetched is left as it was in the dataset. *)
Theorem main_end_to_end env `{PIL} w :
  requests_only env "pokemon_dataset" ->
  fs_error env (OpMakedirs "pokemon_dataset") = None ->
  fs_error env (OpMakedirs "pokemon_processed") = None ->
  fs_error env (OpListdir "pokemon_dataset") = None ->
  Qeq_bool (clock env (2 + ticks w) - clock env (1 + ticks w)) 0 = false ->
  Qeq_bool (clock env (4 + ticks w) - clock env (3 + ticks w)) 0 = false ->
  exists w',
    main env w = (Ok (clock env (5 + ticks w) - clock env (ticks w))%Q, w')
    /\ ticks w' = (6 + ticks w)%nat
    /\ (forall i data,
          1 <= i <= 150 ->
          fetch_outcome env base_url "pokemon_dataset" i w = Ok data ->
          fs w' !! ("pokemon_dataset", item_name i) = Some data
          /\ (forall out,
                fs_error env (OpRead ("pokemon_dataset", item_name i)) = None ->
                transformed LANCZOS true (item_name i) data = Ok out ->
                fs_error env (OpWrite ("pokemon_processed", item_name i)) = None ->
                fs w' !! ("pokemon_processed", item_name i) = Some out))
    /\ (forall i e,
          1 <= i <= 150 ->
          fetch_outcome env base_url "pokemon_dataset" i w = Raise e ->
          fs w' !! ("pokemon_dataset", item_name i) = fs w !! ("pokemon_dataset", item_name i)).
Proof.
  intros Henv Hmk1 Hmk2 Hls Hclock1 Hclock2. unfold main.
  erewrite bind_ok; [| reflexivity].
  set (w1 := mkWorld (fs w) (calls w) (S (ticks w)) (log w)).
  destruct (download_pokemon_run env "pokemon_dataset" 150 IO_WORKERS w1 ltac:(done) Hmk1 Henv)
    as (order1 & w2 & _ & Hrun1 & Hwritten1 & Hframe1 & _ & _ & Hticks1).
  cbn [ticks w1] in Hrun1, Hticks1.
  change (Qeq_bool (clock env (S (S (ticks w))) - clock env (S (ticks w))) 0 = false) in Hclock1.
  rewrite Hclock1 in Hrun1.
  erewrite bind_ok; [| exact Hrun1].
  destruct (process_pokemon_run env "pokemon_dataset" "pokemon_processed" MAX_CPU_WORKERS w2
              ltac:(done) Hmk2 Hls)
    as (order2 & w3 & _ & Hrun2 & Hwritten2 & Hframe2 & _ & _ & Hticks2).
  rewrite Hticks1 in Hrun2, Hticks2.
  change (Qeq_bool (clock env (S (S (S (S (ticks w))))) - clock env (S (S (S (ticks w))))) 0
          = false) in Hclock2.
  rewrite Hclock2 in Hrun2.
  erewrite bind_ok; [| exact Hrun2].
  unfold_monad. unfold time_time. rewrite Hticks2.
  eexists. split; [reflexivity |]. cbn [ticks fs]. split; [done |].
  assert (forall k x : string, ("pokemon_processed", x) <> ("pokemon_dataset", k)) as Hdirs
    by (by intros k x [=]).
  split.
  - intros i data Hi Hfetched.
    assert (i ∈ range 1 (150 + 1)) as Hin by (apply elem_of_range; lia).
    pose proof (Hwritten1 i data Hin Hfetched) as Hfile.
    split.
    + rewrite Hframe2; [done |]. intros image out _ _. apply Hdirs.
    + intros out Hread Htransformed Hwrite. apply Hwritten2.
      * apply (images_of_directory "pokemon_dataset" (fs w2)). split; [by rewrite Hfile |].
        apply endswith_app.
      * unfold transform_outcome, read_outcome. rewrite Hread, Hfile. cbn.
        rewrite Htransformed. cbn. by rewrite Hwrite.
  - intros i e Hi Hfetched.
    rewrite Hframe2; [| intros image out _ _; apply Hdirs].
    apply Hframe1. intros j data Hj Hout [= Heq].
    apply elem_of_range in Hj. apply item_name_inj in Heq; [| lia | lia]. subst j.
    change (fetch_outcome env base_url "pokemon_dataset" i w = Ok data) in Hout.
    by rewrite Hfetched in Hout.
Qed.

(** ** The fetch phase of [pokemon.py] and of [pokemon_optimizado1.py] *)

Lemma Qeq_bool_inject_Z n : Qeq_bool (inject_Z n) 0 = (n =? 0).
Proof. unfold Qeq_bool, inject_Z. cbn. by rewrite Z.mul_1_r. Qed.

Lemma world_eq w1 w2 :
  fs w1 = fs w2 -> calls w1 = calls w2 -> ticks w1 = ticks w2 -> log w1 = log w2 -> w1 = w2.
Proof. destruct w1, w2. cbn. by intros -> -> -> ->. Qed.

(** The events of tasks that each add their own. *)
Lemma run_tasks_log {A B} (task : A -> M B) (events : A -> list event) order w :
  (forall a w0, log (task a w0).2 = (log w0 ++ events a)%list) ->
  log (run_tasks task order w).2 = (log w ++ concat (map events order))%list.
Proof.
  intros Htask. revert w. induction order as [|a order IH]; intros w; cbn [run_tasks map concat].
  - by rewrite app_nil_r.
  - pose proof (Htask a w) as Ha. destruct (task a w) as [o w1]. specialize (IH w1).
    destruct (run_tasks task order w1) as [os w2]. cbn [fst snd] in *.
    by rewrite IH, Ha, app_assoc.
Qed.

Lemma concat_singletons {A B} (f : A -> B) l : concat (map (fun a => [f a]) l) = map f l.
Proof. induction l as [|a l IH]; [done |]. cbn. by rewrite IH. Qed.

Lemma length_filter_Permutation {A} (P : A -> Prop) `{!forall a, Decision (P a)} l1 l2 :
  l1 ≡ₚ l2 -> length (filter P l1) = length (filter P l2).
Proof. intros Hperm. by rewrite Hperm. Qed.

Section FetchOnce.
Context (env : Env) (dir_name : string).

Abbreviation once i w := (fetch_once env base_url dir_name i w).

Lemma fetch_once_ext b i w w' :
  sent (item_url b i) w = sent (item_url b i) w' ->
  fetch_once env b dir_name i w = fetch_once env b dir_name i w'.
Proof. apply attempt_at_ext. Qed.

Lemma fetch_once_requests_only b i w e :
  requests_only env dir_name ->
  fetch_once env b dir_name i w = Raise e -> is_RequestException e = true.
Proof. intros Henv. by apply attempt_at_requests_only. Qed.

(** The task of [pokemon_optimizado1.py] leaves the world that the loop
    body of [pokemon.py] leaves. *)
Lemma optimizado1_task_world i w :
  (Optimizado1.download_single_pokemon env (i, dir_name, base_url) w).2
  = (download_body env dir_name i w).2.
Proof.
  rewrite optimizado1_download_single_pokemon_run, download_body_run. cbn zeta.
  destruct (attempt_at env (item_url base_url i) (dir_name, item_name i) w 0) as [data|e];
    [done |].
  by destruct (is_RequestException e).
Qed.

Lemma optimizado1_task_result i w :
  requests_only env dir_name ->
  (Optimizado1.download_single_pokemon env (i, dir_name, base_url) w).1
  = Ok (is_ok (once i w)).
Proof.
  intros Henv. rewrite optimizado1_download_single_pokemon_run. cbn zeta. unfold fetch_once.
  destruct (attempt_at env (item_url base_url i) (dir_name, item_name i) w 0) as [data|e] eqn:Hat;
    [done |].
  by rewrite (attempt_at_requests_only env _ _ _ _ _ _ Henv Hat).
Qed.

Lemma download_body_returns i w :
  requests_only env dir_name -> (download_body env dir_name i w).1 = Ok tt.
Proof.
  intros Henv. rewrite download_body_run. cbn zeta.
  destruct (attempt_at env (item_url base_url i) (dir_name, item_name i) w 0) as [data|e] eqn:Hat;
    [done |].
  by rewrite (attempt_at_requests_only env _ _ _ _ _ _ Henv Hat).
Qed.

Lemma download_body_log i w :
  log (download_body env dir_name i w).2 = (log w ++ [EvGet (item_url base_url i) None])%list.
Proof.
  rewrite download_body_run. cbn zeta.
  destruct (attempt_at env (item_url base_url i) (dir_name, item_name i) w 0) as [data|e];
    [done |].
  by destruct (is_RequestException e).
Qed.

(** The bodies of the loop on distinct items do not see each other. *)
Lemma run_tasks_download_body ids w0 w :
  NoDup ids ->
  (forall i, i ∈ ids -> 0 <= i) ->
  (forall i, i ∈ ids -> sent (item_url base_url i) w = sent (item_url base_url i) w0) ->
  let run := run_tasks (download_body env dir_name) ids w in
  run.1 = map (fun i => match once i w0 with
                        | Ok _ => Ok tt
                        | Raise e => if is_RequestException e then Ok tt else Raise e
                        end) ids
  /\ (forall i data, i ∈ ids -> once i w0 = Ok data ->
        fs run.2 !! (dir_name, item_name i) = Some data)
  /\ (forall k, (forall i data, i ∈ ids -> once i w0 = Ok data -> (dir_name, item_name i) <> k) ->
        fs run.2 !! k = fs w !! k)
  /\ (forall i, i ∈ ids ->
        calls run.2 !! item_url base_url i = Some (sent (item_url base_url i) w0 + 1)%nat)
  /\ (forall u, (forall i, i ∈ ids -> item_url base_url i <> u) -> calls run.2 !! u = calls w !! u)
  /\ ticks run.2 = ticks w.
Proof.
  intros Hnodup Hpos Hagree. cbn zeta.
  destruct (run_tasks_independent (download_body env dir_name)
              (fun i => (dir_name, item_name i)) (item_url base_url)
              (fun i w => match once i w with
                          | Ok _ => Ok tt
                          | Raise e => if is_RequestException e then Ok tt else Raise e
                          end)
              (fun i w => match once i w with Ok data => Some data | Raise _ => None end)
              (fun _ _ => 1%nat)) with (order := ids) (w0 := w0) (w := w)
    as (Hres & Hwritten & Hframe & Hsent & Hrest & Hticks).
  - intros i w1 w2 Hs. by rewrite (fetch_once_ext base_url i w1 w2 Hs).
  - intros i w1 w2 Hs. by rewrite (fetch_once_ext base_url i w1 w2 Hs).
  - done.
  - intros i w1. rewrite download_body_run. cbn zeta. unfold fetch_once.
    destruct (attempt_at env (item_url base_url i) (dir_name, item_name i) w1 0) as [data|e];
      [done |].
    by destruct (is_RequestException e).
  - intros i w1. rewrite download_body_run. cbn zeta. unfold fetch_once.
    destruct (attempt_at env (item_url base_url i) (dir_name, item_name i) w1 0) as [data|e];
      [done |].
    by destruct (is_RequestException e).
  - intros i w1. rewrite download_body_run. cbn zeta.
    assert (calls (after_request (item_url base_url i) None w1)
            = <[item_url base_url i := (sent (item_url base_url i) w1 + 1)%nat]> (calls w1)) as Hone.
    { cbn [after_request calls]. f_equal. lia. }
    destruct (attempt_at env (item_url base_url i) (dir_name, item_name i) w1 0) as [data|e];
      [done |].
    by destruct (is_RequestException e).
  - intros i w1. rewrite download_body_run. cbn zeta.
    destruct (attempt_at env (item_url base_url i) (dir_name, item_name i) w1 0) as [data|e];
      [done |].
    by destruct (is_RequestException e).
  - by apply NoDup_item_urls.
  - by apply NoDup_item_keys.
  - done.
  - split; [done |]. split; [| split; [| done]].
    + intros i data Hin Hout. apply (Hwritten i data Hin). by rewrite Hout.
    + intros k Hk. apply Hframe. intros i data Hin Hout.
      apply (Hk i data Hin). by destruct (once i w0) as [d|]; [injection Hout as -> |].
Qed.

(** The order of the bodies does not show in the files, in the count of
    the requests or in the clock. *)
Lemma run_tasks_download_body_order order ids w :
  order ≡ₚ ids ->
  NoDup ids ->
  (forall i, i ∈ ids -> 0 <= i) ->
  let run1 := run_tasks (download_body env dir_name) order w in
  let run2 := run_tasks (download_body env dir_name) ids w in
  fs run1.2 = fs run2.2 /\ calls run1.2 = calls run2.2 /\ ticks run1.2 = ticks run2.2
  /\ log run1.2 ≡ₚ log run2.2.
Proof.
  intros Hperm Hnodup Hpos. cbn zeta.
  assert (NoDup order) as Hnodup' by (by rewrite Hperm).
  assert (forall i, i ∈ order -> 0 <= i) as Hpos' by (intros i Hi; apply Hpos; by rewrite <- Hperm).
  destruct (run_tasks_download_body order w w Hnodup' Hpos' ltac:(done))
    as (_ & Hw1 & Hf1 & Hs1 & Hr1 & Ht1).
  destruct (run_tasks_download_body ids w w Hnodup Hpos ltac:(done))
    as (_ & Hw2 & Hf2 & Hs2 & Hr2 & Ht2).
  cbn zeta in *. split; [| split; [| split; [congruence |]]].
  - apply map_eq. intros k.
    destruct (decide (Exists (fun i => (dir_name, item_name i) = k /\ is_ok (once i w) = true) ids))
      as [Hex | Hnone].
    + apply Exists_exists in Hex as (i & Hin & <- & Hok).
      destruct (once i w) as [data|] eqn:Hout; [| done].
      rewrite (Hw2 i data Hin Hout). apply Hw1; [by rewrite Hperm | done].
    + rewrite Hf1, Hf2; [done | |].
      * intros i data Hin Hout Heq. apply Hnone, Exists_exists. exists i.
        split; [done |]. split; [done | by rewrite Hout].
      * intros i data Hin Hout Heq. apply Hnone, Exists_exists. exists i.
        split; [by rewrite <- Hperm |]. split; [done | by rewrite Hout].
  - apply map_eq. intros u.
    destruct (decide (Exists (fun i => item_url base_url i = u) ids)) as [Hex | Hnone].
    + apply Exists_exists in Hex as (i & Hin & <-).
      rewrite (Hs2 i Hin). apply Hs1. by rewrite Hperm.
    + rewrite Hr1, Hr2; [done | |].
      * intros i Hin Heq. apply Hnone, Exists_exists. by exists i.
      * intros i Hin Heq. apply Hnone, Exists_exists. exists i. split; [by rewrite <- Hperm | done].
  - rewrite !(run_tasks_log _ (fun i => [EvGet (item_url base_url i) None]))
      by apply download_body_log.
    rewrite !concat_singletons. by rewrite Hperm.
Qed.

(** The loop of [pokemon_optimizado1.py] over results that are all there. *)
Lemma count_successful_run {A} (g : A -> bool) (order : list A) successful w :
  Optimizado1.count_successful (map (fun i => Ok (g i)) order) successful w
  = (Ok (successful + Z.of_nat (length (filter (fun i => g i = true) order))), w).
Proof.
  revert successful. induction order as [|i order IH]; intros successful;
    cbn [map Optimizado1.count_successful].
  - cbn. unfold mret, M_ret, ret. do 2 f_equal. lia.
  - unfold mbind, M_bind, bind, lift. rewrite filter_cons.
    destruct (g i) eqn:Hg.
    + rewrite IH. rewrite decide_True by done. do 2 f_equal. cbn [length]. lia.
    + rewrite IH. rewrite decide_False by done. done.
Qed.

(** The sequential phase, for every [n]. *)
Lemma baseline_download_run n w :
  fs_error env (OpMakedirs dir_name) = None ->
  requests_only env dir_name ->
  let w1 := mkWorld (fs w) (calls w) (S (ticks w)) (log w) in
  let r := (run_tasks (download_body env dir_name) (range 1 (n + 1)) w1).2 in
  Baseline.download_pokemon env n dir_name w
  = (if n =? 0
     then Raise (Exn ZeroDivisionError "float division by zero")
     else Ok (clock env (S (ticks w)) - clock env (ticks w))%Q,
     mkWorld (fs r) (calls r) (S (S (ticks w))) (log r)).
Proof.
  intros Hmk Henv w1 r. unfold Baseline.download_pokemon.
  erewrite bind_ok; [| by unfold os_makedirs; rewrite Hmk].
  erewrite bind_ok; [| reflexivity].
  erewrite bind_ok.
  2: { apply (for_each_run_tasks (download_body env dir_name)).
       intros i w0. by apply download_body_returns. }
  fold w1 r.
  assert (ticks r = S (ticks w)) as Hticks.
  { unfold r. apply (run_tasks_preserves _ (fun w0 => ticks w0 = S (ticks w))); [| done].
    intros i w0 <-. rewrite download_body_run. cbn zeta.
    destruct (attempt_at env (item_url base_url i) (dir_name, item_name i) w0 0) as [data|e];
      [done |].
    by destruct (is_RequestException e). }
  unfold_monad. unfold time_time, divide. rewrite Hticks, Qeq_bool_inject_Z.
  unfold_monad. by destruct (n =? 0).
Qed.

(** The first parallel phase, for every [n] and every order of completion. *)
Lemma optimizado1_download_run n max_workers w :
  1 <= max_workers ->
  fs_error env (OpMakedirs dir_name) = None ->
  requests_only env dir_name ->
  let w1 := mkWorld (fs w) (calls w) (S (ticks w)) (log w) in
  exists order,
    order ≡ₚ range 1 (n + 1)
    /\ let r := (run_tasks (download_body env dir_name) order w1).2 in
       Optimizado1.download_pokemon env n dir_name max_workers w
       = (if n =? 0
          then Raise (Exn ZeroDivisionError "float division by zero")
          else Ok ((clock env (S (ticks w)) - clock env (ticks w))%Q,
                   Z.of_nat (length (filter (fun i => is_ok (once i w) = true)
                                       (range 1 (n + 1))))),
          mkWorld (fs r) (calls r) (S (S (ticks w))) (log r)).
Proof.
  intros Hmw Hmk Henv w1. unfold Optimizado1.download_pokemon.
  erewrite bind_ok; [| by unfold os_makedirs; rewrite Hmk].
  erewrite bind_ok; [| reflexivity].
  erewrite bind_ok; [| by apply executor_futures_run].
  fold w1.
  pose proof (as_completed_Permutation (Z.to_nat max_workers) (choices env)
                (map (fun i => (i, dir_name, base_url)) (range 1 (n + 1))) ltac:(lia)) as Hperm.
  apply Permutation_map_inv in Hperm as (order & Horder & Hperm).
  rewrite Horder. symmetry in Hperm. exists order. split; [done |]. cbn zeta.
  rewrite run_tasks_map.
  assert (NoDup order) as Hnodup by (rewrite Hperm; apply NoDup_range).
  assert (forall i, i ∈ order -> 0 <= i) as Hpos.
  { intros i Hi. rewrite Hperm in Hi. apply elem_of_range in Hi. lia. }
  destruct (run_tasks_independent
              (fun i => Optimizado1.download_single_pokemon env (i, dir_name, base_url))
              (fun i => (dir_name, item_name i)) (item_url base_url)
              (fun i w => Ok (is_ok (once i w)))
              (fun i w => match once i w with Ok data => Some data | Raise _ => None end)
              (fun _ _ => 1%nat)) with (order := order) (w0 := w) (w := w1)
    as (Hres & _ & _ & _ & _ & Hticks).
  { intros i w2 w3 Hs. by rewrite (fetch_once_ext base_url i w2 w3 Hs). }
  { intros i w2 w3 Hs. by rewrite (fetch_once_ext base_url i w2 w3 Hs). }
  { done. }
  { intros i w2. by apply optimizado1_task_result. }
  { intros i w2. rewrite optimizado1_download_single_pokemon_run. cbn zeta. unfold fetch_once.
    destruct (attempt_at env (item_url base_url i) (dir_name, item_name i) w2 0) as [data|e];
      [done |].
    by destruct (is_RequestException e). }
  { intros i w2. rewrite optimizado1_download_single_pokemon_run. cbn zeta.
    assert (calls (after_request (item_url base_url i) None w2)
            = <[item_url base_url i := (sent (item_url base_url i) w2 + 1)%nat]> (calls w2)) as Hone.
    { cbn [after_request calls]. f_equal. lia. }
    destruct (attempt_at env (item_url base_url i) (dir_name, item_name i) w2 0) as [data|e];
      [done |].
    by destruct (is_RequestException e). }
  { intros i w2. rewrite optimizado1_task_world, download_body_run. cbn zeta.
    destruct (attempt_at env (item_url base_url i) (dir_name, item_name i) w2 0) as [data|e];
      [done |].
    by destruct (is_RequestException e). }
  { by apply NoDup_item_urls. }
  { by apply NoDup_item_keys. }
  { done. }
  cbn zeta in Hres, Hticks.
  pose proof (run_tasks_worlds
                (fun i => Optimizado1.download_single_pokemon env (i, dir_name, base_url))
                (download_body env dir_name) order w1 optimizado1_task_world) as Hworld.
  destruct (run_tasks (fun i => Optimizado1.download_single_pokemon env (i, dir_name, base_url))
              order w1) as [futures w2].
  cbn [fst snd] in *. subst futures. rewrite <- Hworld.
  erewrite bind_ok; [| apply (count_successful_run (fun i => is_ok (once i w)))].
  unfold_monad. unfold time_time, divide. rewrite Hticks, Qeq_bool_inject_Z. cbn [ticks w1].
  unfold_monad. destruct (n =? 0); [done |]. cbn.
  by rewrite (length_filter_Permutation _ _ _ Hperm).
Qed.

End FetchOnce.


(** The first parallel fetch phase against the sequential one. *)
Lemma optimizado1_download_equiv env dir_name n max_workers w :
  1 <= max_workers ->
  requests_only env dir_name ->
  let par := Optimizado1.download_pokemon env n dir_name max_workers w in
  let seq := Baseline.download_pokemon env n dir_name w in
  fst <$> par.1 = seq.1
  /\ fs par.2 = fs seq.2
  /\ calls par.2 = calls seq.2
  /\ ticks par.2 = ticks seq.2
  /\ log par.2 ≡ₚ log seq.2
  /\ (forall total_time successful,
        par.1 = Ok (total_time, successful) ->
        successful
        = Z.of_nat (length (filter (fun i => is_ok (fetch_once env base_url dir_name i w) = true)
                              (range 1 (n + 1))))).
Proof.
  intros Hmw Henv par seq.
  destruct (fs_error env (OpMakedirs dir_name)) as [e|] eqn:Hmk.
  - assert (par = (Raise e, w)) as ->.
    { unfold par, Optimizado1.download_pokemon, os_makedirs. unfold_monad. by rewrite Hmk. }
    assert (seq = (Raise e, w)) as ->.
    { unfold seq, Baseline.download_pokemon, os_makedirs. unfold_monad. by rewrite Hmk. }
    done.
  - destruct (optimizado1_download_run env dir_name n max_workers w Hmw Hmk Henv)
      as (order & Hperm & Hpar).
    cbn zeta in Hpar. fold par in Hpar.
    pose proof (baseline_download_run env dir_name n w Hmk Henv) as Hseq.
    cbn zeta in Hseq. fold seq in Hseq.
    destruct (run_tasks_download_body_order env dir_name order (range 1 (n + 1))
                (mkWorld (fs w) (calls w) (S (ticks w)) (log w)) Hperm (NoDup_range _ _))
      as (Hfs & Hcalls & Hticks & Hlog).
    { intros i Hi. apply elem_of_range in Hi. lia. }
    cbn zeta in *. rewrite Hpar, Hseq. cbn [fst snd fs calls ticks log].
    split; [by destruct (n =? 0) |]. split; [done |]. split; [done |]. split; [done |].
    split; [done |].
    intros total_time successful. destruct (n =? 0); [done |]. by intros [= _ <-].
Qed.

(** X10. The fetch phase of [pokemon_optimizado1.py] with at least one
    worker does what the fetch phase of [pokemon.py] does, whatever the
    order in which its tasks complete, when a request raises nothing but
    exceptions of the request classes and no write raises: the two return
    the same time or raise the same exception, they leave the same files,
    the same count of requests for every URL and the same clock, and they
    send the same requests, in an order that may differ.  The counter of
    the parallel phase is the number of ids whose request succeeds. *)
Theorem optimizado1_download_as_sequential env dir_name n max_workers w :
  1 <= max_workers ->
  requests_only env dir_name ->
  let par := Optimizado1.download_pokemon env n dir_name max_workers w in
  let seq := Baseline.download_pokemon env n dir_name w in
  fst <$> par.1 = seq.1
  /\ fs par.2 = fs seq.2
  /\ calls par.2 = calls seq.2
  /\ ticks par.2 = ticks seq.2
  /\ log par.2 ≡ₚ log seq.2
  /\ (forall total_time successful,
        par.1 = Ok (total_time, successful) ->
        successful
        = Z.of_nat (length (filter (fun i => is_ok (fetch_once env base_url dir_name i w) = true)
                              (range 1 (n + 1))))).
Proof. apply optimizado1_download_equiv. Qed.

(** ** The transform phase of [pokemon.py] and of [pokemon_optimizado1.py] *)

Section TransformWorlds.
Context (env : Env) `{PIL} (kernel : Resampling) (optimize : bool).
Context (dir_origin dir_name : string).
Context {B : Type} (task : string -> M B) (res : string -> Outcome bytes -> Outcome B).

Abbreviation chain_of image w :=
  (transform_outcome env kernel optimize image dir_origin dir_name w).

(** The task of [image] runs the chain on its input file and writes its
    output file, whatever it then returns. *)
Hypothesis task_world : forall image w,
  (task image w).2 = (spec_transform_task env kernel optimize (image, dir_origin, dir_name) w).2.
Hypothesis task_result : forall image w, (task image w).1 = res image (chain_of image w).

Lemma chain_of_ext image w1 w2 :
  fs w1 !! (dir_origin, image) = fs w2 !! (dir_origin, image) ->
  chain_of image w1 = chain_of image w2.
Proof. intros Hsame. unfold transform_outcome, read_outcome. by rewrite Hsame. Qed.

Lemma run_tasks_transform_batch images w0 w :
  NoDup images ->
  (forall x, x ∈ images -> fs w !! (dir_origin, x) = fs w0 !! (dir_origin, x)) ->
  let run := run_tasks task images w in
  run.1 = map (fun x => res x (chain_of x w0)) images
  /\ (forall x out, x ∈ images -> chain_of x w0 = Ok out -> fs run.2 !! (dir_name, x) = Some out)
  /\ (forall k,
        (forall x out, x ∈ images -> chain_of x w0 = Ok out -> (dir_name, x) <> k) ->
        fs run.2 !! k = fs w !! k)
  /\ calls run.2 = calls w /\ ticks run.2 = ticks w /\ log run.2 = log w.
Proof.
  intros Hnodup. revert w. induction Hnodup as [|a rest Hnotin Hnodup IH]; intros w Hagree;
    cbn zeta; cbn [map run_tasks].
  - split; [done |]. split; [| done]. intros x out Hin. by apply elem_of_nil in Hin.
  - pose proof (task_result a w) as Hres. pose proof (task_world a w) as Hworld.
    rewrite (chain_of_ext a w w0) in Hres by (apply Hagree; left).
    unfold spec_transform_task in Hworld.
    rewrite (chain_of_ext a w w0) in Hworld by (apply Hagree; left).
    destruct (task a w) as [o w1]. cbn [fst snd] in Hres, Hworld. subst o.
    assert (fs w1 = match chain_of a w0 with
                    | Ok out => <[(dir_name, a) := out]> (fs w)
                    | Raise _ => fs w
                    end
            /\ calls w1 = calls w /\ ticks w1 = ticks w /\ log w1 = log w)
      as (Hfs & Hcalls & Hticks & Hlog).
    { rewrite Hworld. by destruct (chain_of a w0). }
    clear Hworld.
    assert (forall x, x ∈ rest -> fs w1 !! (dir_origin, x) = fs w0 !! (dir_origin, x)) as Hagree1.
    { intros x Hx. rewrite Hfs, <- (Hagree x) by (by right).
      destruct (chain_of a w0) as [out|e]; [| done].
      rewrite lookup_insert_ne; [done |]. intros [= _ ->]. done. }
    destruct (IH w1 Hagree1) as (Hresults & Hwritten & Hframe & Hc & Ht & Hl).
    destruct (run_tasks task rest w1) as [os w2]. cbn [fst snd] in *.
    split; [by rewrite Hresults |]. split; [| split; [| by rewrite Hc, Ht, Hl]].
    + intros x out Hin Hout. apply elem_of_cons in Hin as [-> | Hin]; [| by eapply Hwritten].
      rewrite Hframe.
      * rewrite Hfs, Hout. apply lookup_insert_eq.
      * intros x out' Hx _ [= ->]. done.
    + intros k Hk. rewrite Hframe.
      * rewrite Hfs. destruct (chain_of a w0) as [out|e] eqn:Hout; [| done].
        rewrite lookup_insert_ne; [done |]. eapply Hk; [left | done].
      * intros x out Hx Hout. eapply Hk; [by right | done].
Qed.

End TransformWorlds.

Section TransformSequential.
Context (env : Env) `{PIL} (dir_origin dir_name : string).

Abbreviation plain_of image w :=
  (transform_outcome env LANCZOS false image dir_origin dir_name w).

(** The task of [pokemon_optimizado1.py] runs the chain of [pokemon.py]. *)
Lemma optimizado1_process_single_image_run image w :
  Optimizado1.process_single_image env (image, dir_origin, dir_name) w
  = (Ok (is_ok (plain_of image w)),
     (spec_transform_task env LANCZOS false (image, dir_origin, dir_name) w).2).
Proof.
  unfold Optimizado1.process_single_image, spec_transform_task, transform_outcome, transformed,
    read_outcome, read_file, Image_save, write_file, os_path_join, spec_save_quality.
  unfold_monad. cbn.
  destruct (fs_error env (OpRead (dir_origin, image))) as [e|]; cbn; [done |].
  destruct (lookup _ _) as [data|]; cbn; [| done].
  destruct (Image_open data) as [img0|e]; cbn; [| done].
  destruct (Image_convert "RGB" img0) as [img1|e]; cbn; [| done].
  destruct (Image_filter (GaussianBlur 10) img1) as [img2|e]; cbn; [| done].
  destruct (ImageEnhance_Contrast (3 # 2) img2) as [img3|e]; cbn; [| done].
  destruct (Image_filter EDGE_ENHANCE_MORE img3) as [img4|e]; cbn; [| done].
  destruct (ImageOps_invert img4) as [img5|e]; cbn; [| done].
  destruct (Image_filter (GaussianBlur 5) img5) as [img6|e]; cbn; [| done].
  destruct (Image_size img6) as [width height]; cbn.
  destruct (Image_resize (width * 2, height * 2) LANCZOS img6) as [img7|e]; cbn; [| done].
  destruct (Image_resize (width, height) LANCZOS img7) as [img8|e]; cbn; [| done].
  destruct (Image_encode image 95 false img8) as [out|e]; cbn; [| done].
  by destruct (fs_error env (OpWrite (dir_name, image))) as [e|].
Qed.

(** The tasks of the two versions on a set of images, in two orders. *)
Lemma run_tasks_plain_order order images w :
  order ≡ₚ images ->
  NoDup images ->
  let par := run_tasks (fun image =>
                          Optimizado1.process_single_image env (image, dir_origin, dir_name))
               order w in
  let seq := run_tasks (fun image => Baseline.process_image env image dir_origin dir_name)
               images w in
  par.1 = map (fun image => Ok (is_ok (plain_of image w))) order
  /\ par.2 = seq.2
  /\ (forall x out, x ∈ images -> plain_of x w = Ok out -> fs seq.2 !! (dir_name, x) = Some out)
  /\ (forall k,
        (forall x out, x ∈ images -> plain_of x w = Ok out -> (dir_name, x) <> k) ->
        fs seq.2 !! k = fs w !! k)
  /\ calls seq.2 = calls w /\ ticks seq.2 = ticks w /\ log seq.2 = log w.
Proof.
  intros Hperm Hnodup par seq.
  assert (NoDup order) as Hnodup' by (by rewrite Hperm).
  destruct (run_tasks_transform_batch env LANCZOS false dir_origin dir_name
              (fun image => Optimizado1.process_single_image env (image, dir_origin, dir_name))
              (fun _ o => Ok (is_ok o))) with (images := order) (w0 := w) (w := w)
    as (Hres1 & Hw1 & Hf1 & Hc1 & Ht1 & Hl1); [| | done | done |].
  { intros image w0. by rewrite optimizado1_process_single_image_run. }
  { intros image w0. by rewrite optimizado1_process_single_image_run. }
  destruct (run_tasks_transform_batch env LANCZOS false dir_origin dir_name
              (fun image => Baseline.process_image env image dir_origin dir_name)
              (fun _ _ => Ok tt)) with (images := images) (w0 := w) (w := w)
    as (_ & Hw2 & Hf2 & Hc2 & Ht2 & Hl2); [| | done | done |].
  { intros image w0. apply baseline_process_image_run. }
  { intros image w0. apply baseline_process_image_run. }
  cbn zeta in *. fold par in Hres1, Hw1, Hf1, Hc1, Ht1, Hl1. fold seq in Hw2, Hf2, Hc2, Ht2, Hl2.
  split; [done |]. split; [| done].
  apply world_eq; [| congruence | congruence | congruence].
  apply map_eq. intros k.
  destruct (decide (Exists (fun x => (dir_name, x) = k /\ is_ok (plain_of x w) = true) images))
    as [Hex | Hnone].
  - apply Exists_exists in Hex as (x & Hin & <- & Hok).
    destruct (plain_of x w) as [out|] eqn:Hout; [| done].
    rewrite (Hw2 x out Hin Hout). apply Hw1; [by rewrite Hperm | done].
  - rewrite Hf1, Hf2; [done | |].
    + intros x out Hin Hout Heq. apply Hnone, Exists_exists. exists x.
      split; [done |]. split; [done | by rewrite Hout].
    + intros x out Hin Hout Heq. apply Hnone, Exists_exists. exists x.
      split; [by rewrite <- Hperm |]. split; [done | by rewrite Hout].
Qed.

(** The sequential phase, for every state of the input directory. *)
Lemma baseline_process_run w :
  fs_error env (OpMakedirs dir_name) = None ->
  fs_error env (OpListdir dir_origin) = None ->
  let images := images_of dir_origin w in
  let w1 := mkWorld (fs w) (calls w) (S (ticks w)) (log w) in
  let r := (run_tasks (fun image => Baseline.process_image env image dir_origin dir_name)
              images w1).2 in
  Baseline.process_pokemon env dir_origin dir_name w
  = (match images with
     | [] => Raise (Exn ZeroDivisionError "float division by zero")
     | _ => Ok (clock env (S (ticks w)) - clock env (ticks w))%Q
     end,
     mkWorld (fs r) (calls r) (S (S (ticks w))) (log r)).
Proof.
  intros Hmk Hls images w1 r. unfold Baseline.process_pokemon.
  erewrite bind_ok; [| by unfold os_makedirs; rewrite Hmk].
  erewrite bind_ok; [| by apply list_images_run].
  fold (images_of dir_origin w). fold images.
  erewrite bind_ok; [| reflexivity].
  erewrite bind_ok.
  2: { apply (for_each_run_tasks
                (fun image => Baseline.process_image env image dir_origin dir_name)).
       intros image w0. apply baseline_process_image_run. }
  fold w1 r.
  assert (ticks r = S (ticks w)) as Hticks.
  { unfold r. apply (run_tasks_preserves _ (fun w0 => ticks w0 = S (ticks w))); [| done].
    intros image w0 <-.
    rewrite (proj2 (baseline_process_image_run env image dir_origin dir_name w0)).
    unfold spec_transform_task.
    by destruct (transform_outcome env LANCZOS false image dir_origin dir_name w0). }
  unfold_monad. unfold time_time, divide. rewrite Hticks, Qeq_bool_inject_Z.
  unfold_monad. by destruct images.
Qed.

(** The first parallel phase, for every state of the input directory and
    every order of completion. *)
Lemma optimizado1_process_run max_workers w :
  1 <= max_workers ->
  fs_error env (OpMakedirs dir_name) = None ->
  fs_error env (OpListdir dir_origin) = None ->
  let images := images_of dir_origin w in
  let w1 := mkWorld (fs w) (calls w) (S (ticks w)) (log w) in
  let r := (run_tasks (fun image => Baseline.process_image env image dir_origin dir_name)
              images w1).2 in
  Optimizado1.process_pokemon env dir_origin dir_name max_workers w
  = (match images with
     | [] => Raise (Exn ZeroDivisionError "float division by zero")
     | _ => Ok ((clock env (S (ticks w)) - clock env (ticks w))%Q,
                Z.of_nat (length (filter (fun image => is_ok (plain_of image w) = true) images)))
     end,
     mkWorld (fs r) (calls r) (S (S (ticks w))) (log r)).
Proof.
  intros Hmw Hmk Hls images w1 r. unfold Optimizado1.process_pokemon.
  erewrite bind_ok; [| by unfold os_makedirs; rewrite Hmk].
  erewrite bind_ok; [| by apply list_images_run].
  fold (images_of dir_origin w). fold images.
  erewrite bind_ok; [| reflexivity].
  erewrite bind_ok; [| by apply executor_futures_run].
  fold w1.
  pose proof (as_completed_Permutation (Z.to_nat max_workers) (choices env)
                (map (fun image => (image, dir_origin, dir_name)) images) ltac:(lia)) as Hperm.
  apply Permutation_map_inv in Hperm as (order & Horder & Hperm).
  rewrite Horder. symmetry in Hperm. rewrite run_tasks_map.
  assert (NoDup images) as Hnodup by apply (images_of_directory dir_origin (fs w)).
  destruct (run_tasks_plain_order order images w1 Hperm Hnodup)
    as (Hres & Hworld & _ & _ & _ & Hticks & _).
  cbn zeta in Hres, Hworld, Hticks. fold r in Hworld, Hticks.
  destruct (run_tasks (fun image =>
                         Optimizado1.process_single_image env (image, dir_origin, dir_name))
              order w1) as [futures w2].
  cbn [fst snd] in *. subst futures w2.
  erewrite bind_ok; [| apply (count_successful_run (fun image => is_ok (plain_of image w1)))].
  unfold_monad. unfold time_time, divide. rewrite Hticks, Qeq_bool_inject_Z. cbn [ticks w1].
  unfold_monad. destruct images as [|image images']; [done |]. cbn.
  by rewrite (length_filter_Permutation _ _ _ Hperm).
Qed.

End TransformSequential.


(** The first parallel transform phase against the sequential one. *)
Lemma optimizado1_process_equiv env `{PIL} dir_origin dir_name max_workers w :
  1 <= max_workers ->
  let par := Optimizado1.process_pokemon env dir_origin dir_name max_workers w in
  let seq := Baseline.process_pokemon env dir_origin dir_name w in
  fst <$> par.1 = seq.1
  /\ par.2 = seq.2
  /\ (forall total_time successful,
        par.1 = Ok (total_time, successful) ->
        successful
        = Z.of_nat (length (filter (fun image =>
                                      is_ok (transform_outcome env LANCZOS false image
                                               dir_origin dir_name w) = true)
                              (images_of dir_origin w)))).
Proof.
  intros Hmw par seq.
  destruct (fs_error env (OpMakedirs dir_name)) as [e|] eqn:Hmk.
  { assert (par = (Raise e, w)) as ->.
    { unfold par, Optimizado1.process_pokemon, os_makedirs. unfold_monad. by rewrite Hmk. }
    assert (seq = (Raise e, w)) as ->.
    { unfold seq, Baseline.process_pokemon, os_makedirs. unfold_monad. by rewrite Hmk. }
    done. }
  destruct (fs_error env (OpListdir dir_origin)) as [e|] eqn:Hls.
  { assert (par = (Raise e, w)) as ->.
    { unfold par, Optimizado1.process_pokemon, os_makedirs, list_images, os_listdir.
      unfold_monad. by rewrite Hmk, Hls. }
    assert (seq = (Raise e, w)) as ->.
    { unfold seq, Baseline.process_pokemon, os_makedirs, list_images, os_listdir.
      unfold_monad. by rewrite Hmk, Hls. }
    done. }
  pose proof (optimizado1_process_run env dir_origin dir_name max_workers w Hmw Hmk Hls) as Hpar.
  pose proof (baseline_process_run env dir_origin dir_name w Hmk Hls) as Hseq.
  cbn zeta in Hpar, Hseq. fold par in Hpar. fold seq in Hseq. rewrite Hpar, Hseq.
  cbn [fst snd]. split; [by destruct (images_of dir_origin w) |]. split; [done |].
  intros total_time successful. destruct (images_of dir_origin w); [done |]. by intros [= _ <-].
Qed.

(** X12. The transform phase of [pokemon_optimizado1.py] with at least one
    worker does what the transform phase of [pokemon.py] does, on every
    state of the input directory and whatever the order in which its tasks
    complete: the two return the same time or raise the same exception, and
    they leave the same world.  The counter of the parallel phase is the
    number of images that transform. *)
Theorem optimizado1_process_as_sequential env `{PIL} dir_origin dir_name max_workers w :
  1 <= max_workers ->
  let par := Optimizado1.process_pokemon env dir_origin dir_name max_workers w in
  let seq := Baseline.process_pokemon env dir_origin dir_name w in
  fst <$> par.1 = seq.1
  /\ par.2 = seq.2
  /\ (forall total_time successful,
        par.1 = Ok (total_time, successful) ->
        successful
        = Z.of_nat (length (filter (fun image =>
                                      is_ok (transform_outcome env LANCZOS false image
                                               dir_origin dir_name w) = true)
                              (images_of dir_origin w)))).
Proof. apply optimizado1_process_equiv. Qed.

(** ** The names of the items and the order of the images *)

Lemma length_zeros k : String.length (zeros k) = k.
Proof. induction k as [|k IH]; [done |]. cbn. by rewrite IH. Qed.

(** X13. The name of item [i >= 0] is its decimal writing, padded with
    zeros on the left to three digits when it is shorter, followed by
    [.png]: the digits read back as [i], they are three for an [i] below
    1000 and the digits of [i] otherwise, and the name passes the filter of
    the transform phase. *)
Theorem item_name_round_trip i :
  0 <= i ->
  digits_value (format_03d i) = Z.to_N i
  /\ String.length (format_03d i) = Nat.max 3 (String.length (decimal i))
  /\ (i < 1000 -> String.length (format_03d i) = 3%nat)
  /\ endswith (item_name i) ".png" = true.
Proof.
  intros Hi.
  assert (format_03d i = zfill 3 (decimal i)) as Hformat.
  { unfold format_03d. by destruct (Z.ltb_spec i 0); [lia |]. }
  assert (String.length (format_03d i) = Nat.max 3 (String.length (decimal i))) as Hlen.
  { rewrite Hformat. unfold zfill. rewrite string_length_app, length_zeros. lia. }
  split; [| split; [done | split; [| apply endswith_app]]].
  - rewrite Hformat. unfold zfill. by rewrite digits_value_zeros, digits_value_decimal.
  - intros Hlt. rewrite Hlen.
    assert (forallb (fun k => (String.length (decimal k) <=? 3)%nat) (range 0 1000) = true)
      as Hall by (vm_compute; reflexivity).
    rewrite forallb_forall in Hall.
    specialize (Hall i ltac:(apply list_elem_of_In, elem_of_range; lia)).
    apply Nat.leb_le in Hall. lia.
Qed.

Lemma item_names_adjacent i :
  1 <= i < 999 -> String.le (item_name i) (item_name (i + 1)).
Proof.
  intros Hi.
  assert (forallb (fun k => String.leb (item_name k) (item_name (k + 1))) (range 1 999) = true)
    as Hall by (vm_compute; reflexivity).
  rewrite forallb_forall in Hall.
  specialize (Hall i ltac:(apply list_elem_of_In, elem_of_range; lia)).
  unfold String.le. by rewrite Hall.
Qed.

Lemma item_names_Sorted (k : nat) lo :
  1 <= lo -> lo + Z.of_nat k <= 1000 ->
  Sorted String.le (map item_name (range lo (lo + Z.of_nat k))).
Proof.
  revert lo. induction k as [|k IH]; intros lo Hlo Hhi.
  - rewrite range_nil by lia. constructor.
  - rewrite range_cons by lia. cbn [map].
    replace (lo + Z.of_nat (S k)) with ((lo + 1) + Z.of_nat k) by lia.
    constructor; [apply IH; lia |].
    destruct k as [|k].
    + rewrite range_nil by lia. constructor.
    + rewrite range_cons by lia. cbn [map]. constructor. apply item_names_adjacent. lia.
Qed.

(** X14. The order of the images of the transform phase, [sorted] on the
    names, is the order of the ids for up to 999 items, in whatever order
    the files were written or are listed; from 1000 items on it is not: the
    name of item 1000 comes before the name of item 999. *)
Theorem images_in_id_order n ids :
  0 <= n <= 999 ->
  ids ≡ₚ range 1 (n + 1) ->
  sorted (map item_name ids) = map item_name (range 1 (n + 1))
  /\ sorted [item_name 999; item_name 1000] = [item_name 1000; item_name 999].
Proof.
  intros Hn Hperm. split; [| by vm_compute].
  apply (Sorted_unique String.le).
  - apply sorted_Sorted.
  - replace (n + 1) with (1 + Z.of_nat (Z.to_nat n)) by lia.
    apply item_names_Sorted; lia.
  - by rewrite sorted_Permutation, Hperm.
Qed.

(** ** What the second version adds to the fetch task *)

(** X15. The fetch task of [pokemon_optimizado2.py] with a budget of one
    attempt is the fetch task of [pokemon_optimizado1.py] with a timeout of
    ten seconds on its request and the name of the file in its result: the
    two succeed, fail or raise together, write the same files and count the
    same requests; with one attempt there is no pause. *)
Theorem download_single_pokemon_one_attempt env i dir_name b w :
  let v2 := download_single_pokemon env (i, dir_name, b, 1) w in
  let v1 := Optimizado1.download_single_pokemon env (i, dir_name, b) w in
  v2.1 = (fun success : bool => (success, item_name i)) <$> v1.1
  /\ fs v2.2 = fs v1.2
  /\ calls v2.2 = calls v1.2
  /\ ticks v2.2 = ticks v1.2
  /\ log v2.2 = (log w ++ [EvGet (item_url b i) (Some 10)])%list
  /\ log v1.2 = (log w ++ [EvGet (item_url b i) None])%list.
Proof.
  assert (download_single_pokemon env (i, dir_name, b, 1) w
          = match attempt_at env (item_url b i) (dir_name, item_name i) w 0 with
            | Ok data =>
                (Ok (true, item_name i),
                 after_write (dir_name, item_name i) data (after_get (item_url b i) w))
            | Raise e =>
                if is_RequestException e
                then (Ok (false, item_name i), after_get (item_url b i) w)
                else (Raise e, after_get (item_url b i) w)
            end) as Hone.
  { rewrite download_single_pokemon_unfold. cbn zeta.
    fold (item_name i). fold (item_url b i).
    change (range 0 1) with [0]. cbn [for_return].
    unfold mbind, M_bind, bind at 1. unfold bind at 1. rewrite attempt_body_run.
    destruct (attempt_at env (item_url b i) (dir_name, item_name i) w 0) as [data|e]; [done |].
    destruct (is_RequestException e); [| done].
    by change (0 =? 1 - 1) with true. }
  cbn zeta. rewrite Hone, optimizado1_download_single_pokemon_run. cbn zeta.
  destruct (attempt_at env (item_url b i) (dir_name, item_name i) w 0) as [data|e];
    [repeat split; reflexivity |].
  destruct (is_RequestException e); repeat split; reflexivity.
Qed.

(** ** What the fetch task leaves alone *)









(** ** The two scripts *)

Lemma with_log_same w : with_log (log w) w = w.
Proof. by destruct w. Qed.

Lemma run_tasks_with_log {A B} (task : A -> M B) l order w :
  (forall a w0, task a (with_log l w0) = ((task a w0).1, with_log l (task a w0).2)) ->
  run_tasks task order (with_log l w)
  = ((run_tasks task order w).1, with_log l (run_tasks task order w).2).
Proof.
  intros Htask. revert w. induction order as [|a order IH]; intros w; cbn [run_tasks]; [done |].
  rewrite Htask. destruct (task a w) as [o w1]. cbn [fst snd]. rewrite IH.
  by destruct (run_tasks task order w1).
Qed.

(** The transform phase of [pokemon.py] does not read the events. *)
Lemma baseline_process_with_log env `{PIL} dir_origin dir_name l w :
  Baseline.process_pokemon env dir_origin dir_name (with_log l w)
  = ((Baseline.process_pokemon env dir_origin dir_name w).1,
     with_log l (Baseline.process_pokemon env dir_origin dir_name w).2).
Proof.
  destruct (fs_error env (OpMakedirs dir_name)) as [e|] eqn:Hmk.
  { unfold Baseline.process_pokemon, os_makedirs. unfold_monad. by rewrite Hmk. }
  destruct (fs_error env (OpListdir dir_origin)) as [e|] eqn:Hls.
  { unfold Baseline.process_pokemon, os_makedirs, list_images, os_listdir.
    unfold_monad. by rewrite Hmk, Hls. }
  rewrite !(baseline_process_run env dir_origin dir_name _ Hmk Hls). cbn zeta.
  change (images_of dir_origin (with_log l w)) with (images_of dir_origin w).
  change (mkWorld (fs (with_log l w)) (calls (with_log l w)) (S (ticks (with_log l w)))
            (log (with_log l w)))
    with (with_log l (mkWorld (fs w) (calls w) (S (ticks w)) (log w))).
  rewrite run_tasks_with_log; [done |].
  intros image w0.
  destruct (baseline_process_image_run env image dir_origin dir_name w0) as [Hres Hworld].
  destruct (baseline_process_image_run env image dir_origin dir_name (with_log l w0))
    as [Hres' Hworld'].
  destruct (Baseline.process_image env image dir_origin dir_name w0) as [o w1].
  destruct (Baseline.process_image env image dir_origin dir_name (with_log l w0)) as [o' w1'].
  cbn [fst snd] in *. subst o o' w1 w1'. f_equal.
  unfold spec_transform_task.
  change (transform_outcome env LANCZOS false image dir_origin dir_name (with_log l w0))
    with (transform_outcome env LANCZOS false image dir_origin dir_name w0).
  by destruct (transform_outcome env LANCZOS false image dir_origin dir_name w0).
Qed.

(** X16. The script of [pokemon_optimizado1.py] does what the script of
    [pokemon.py] does, whatever the order in which the tasks of its two
    pools complete, when a request raises nothing but exceptions of the
    request classes and no write to the dataset raises: the two return the
    same total or raise the same exception, they leave the same files, the
    same count of requests for every URL and the same clock, and they send
    the same requests, in an order that may differ. *)
Theorem optimizado1_script_as_sequential env `{PIL} w :
  requests_only env "pokemon_dataset" ->
  let par := Optimizado1.script env w in
  let seq := pokemon_script env w in
  par.1 = seq.1
  /\ fs par.2 = fs seq.2
  /\ calls par.2 = calls seq.2
  /\ ticks par.2 = ticks seq.2
  /\ log par.2 ≡ₚ log seq.2.
Proof.
  intros Henv par seq. unfold par, seq, Optimizado1.script, pokemon_script.
  destruct (optimizado1_download_equiv env "pokemon_dataset" 150 40 w ltac:(done) Henv)
    as (Hres & Hfs & Hcalls & Hticks & Hlog & _).
  cbn zeta in *. unfold_monad.
  destruct (Optimizado1.download_pokemon env 150 "pokemon_dataset" 40 w) as [o1 wa1].
  destruct (Baseline.download_pokemon env 150 "pokemon_dataset" w) as [o0 wa0].
  cbn [fst snd] in *.
  destruct o1 as [[t1 s1]|e1], o0 as [t0|e0]; try discriminate Hres.
  2: { injection Hres as <-. done. }
  injection Hres as <-.
  destruct (optimizado1_process_equiv env "pokemon_dataset" "pokemon_processed" 8 wa1
              ltac:(done)) as (Hres2 & Hworld2 & _).
  cbn zeta in *.
  assert (wa1 = with_log (log wa1) wa0) as Hwa.
  { by apply world_eq. }
  pose proof (baseline_process_with_log env "pokemon_dataset" "pokemon_processed" (log wa1) wa0)
    as Hshift.
  rewrite <- Hwa in Hshift. rewrite Hshift in Hres2, Hworld2.
  cbn [fst snd] in Hres2, Hworld2. clear Hshift Hwa.
  pose proof (baseline_process_with_log env "pokemon_dataset" "pokemon_processed" (log wa0) wa0)
    as Hsame.
  rewrite with_log_same in Hsame.
  destruct (Optimizado1.process_pokemon env "pokemon_dataset" "pokemon_processed" 8 wa1)
    as [o1 wb1].
  destruct (Baseline.process_pokemon env "pokemon_dataset" "pokemon_processed" wa0)
    as [o0 wb0].
  cbn [fst snd] in *. subst wb1. injection Hsame as Hlog0.
  destruct o1 as [[t1' s1']|e1], o0 as [t0'|e0]; try discriminate Hres2.
  - injection Hres2 as <-. cbn. repeat split; try reflexivity.
    rewrite Hlog0. cbn. done.
  - injection Hres2 as <-. cbn. repeat split; try reflexivity.
    rewrite Hlog0. cbn. done.
Qed.

(** ** The sequential fetch and an error that is not of the request *)

Lemma for_each_app {A} (body : A -> M unit) xs ys w :
  for_each (xs ++ ys) body w
  = match for_each xs body w with
    | (Ok _, w1) => for_each ys body w1
    | (Raise e, w1) => (Raise e, w1)
    end.
Proof.
  revert w. induction xs as [|x xs IH]; intros w; cbn [app for_each]; [done |].
  unfold mbind, M_bind, bind. destruct (body x w) as [[[]|e] w1]; [apply IH | done].
Qed.

Lemma range_split lo mid hi :
  lo <= mid <= hi -> range lo hi = (range lo mid ++ range mid hi)%list.
Proof.
  intros Hle. remember (Z.to_nat (mid - lo)) as j eqn:Hj. revert lo Hle Hj.
  induction j as [|j IH]; intros lo Hle Hj.
  - replace mid with lo by lia. by rewrite (range_nil lo lo) by lia.
  - rewrite (range_cons lo hi), (range_cons lo mid) by lia. cbn [app]. f_equal. apply IH; lia.
Qed.

(** A loop runs its body on every element as long as no body raises. *)
Lemma for_each_results {A} (body : A -> M unit) xs w :
  Forall (fun o => o = Ok tt) (run_tasks body xs w).1 ->
  for_each xs body w = (Ok tt, (run_tasks body xs w).2).
Proof.
  revert w. induction xs as [|x xs IH]; intros w; cbn [for_each run_tasks]; [done |].
  unfold mbind, M_bind, bind. destruct (body x w) as [o w1]. specialize (IH w1).
  destruct (run_tasks body xs w1) as [os w2]. cbn [fst snd] in *.
  intros Hall. apply Forall_cons in Hall as [-> Hall]. by apply IH.
Qed.

(** X18. In the fetch phase of [pokemon.py], an exception that is not of
    the request classes (the error of a failed write, say) is not caught:
    when item [k] is the first whose attempt raises one, the phase ends with
    that exception after exactly one request for each of the ids [1..k], in
    order; the items after [k] are not requested, no summary is computed and
    the clock is not read again. *)
Theorem baseline_download_stops env dir_name n w k e :
  fs_error env (OpMakedirs dir_name) = None ->
  1 <= k <= n ->
  (forall i e', 1 <= i < k -> fetch_once env base_url dir_name i w = Raise e' ->
     is_RequestException e' = true) ->
  fetch_once env base_url dir_name k w = Raise e ->
  is_RequestException e = false ->
  exists w',
    Baseline.download_pokemon env n dir_name w = (Raise e, w')
    /\ log w' = (log w ++ map (fun i => EvGet (item_url base_url i) None) (range 1 (k + 1)))%list
    /\ (forall i, k < i -> calls w' !! item_url base_url i = calls w !! item_url base_url i)
    /\ ticks w' = S (ticks w).
Proof.
  intros Hmk Hk Hbefore Hfails Hother. unfold Baseline.download_pokemon.
  erewrite bind_ok; [| by unfold os_makedirs; rewrite Hmk].
  erewrite bind_ok; [| reflexivity].
  set (w1 := mkWorld (fs w) (calls w) (S (ticks w)) (log w)).
  change (for_each (range 1 (n + 1)) _) with (for_each (range 1 (n + 1)) (download_body env dir_name)).
  rewrite (range_split 1 k (n + 1)) by lia. rewrite (range_cons k) by lia.
  enough (exists w',
             for_each (range 1 k ++ k :: range (k + 1) (n + 1)) (download_body env dir_name) w1
             = (Raise e, w')
             /\ log w'
                = (log w ++ map (fun i => EvGet (item_url base_url i) None) (range 1 (k + 1)))%list
             /\ (forall i, k < i ->
                   calls w' !! item_url base_url i = calls w !! item_url base_url i)
             /\ ticks w' = S (ticks w)) as (w' & Hloop & Hfacts).
  { exists w'. split; [by apply bind_raise | done]. }
  rewrite for_each_app.
  assert (NoDup (range 1 k)) as Hnodup by apply NoDup_range.
  assert (forall i, i ∈ range 1 k -> 0 <= i) as Hpos.
  { intros i Hi. apply elem_of_range in Hi. lia. }
  destruct (run_tasks_download_body env dir_name (range 1 k) w w1 Hnodup Hpos ltac:(done))
    as (Hres & _ & _ & _ & Hrest & Hticks).
  cbn zeta in Hres, Hrest, Hticks.
  pose proof (run_tasks_log (download_body env dir_name)
                (fun i => [EvGet (item_url base_url i) None]) (range 1 k) w1
                (download_body_log env dir_name)) as Hlog.
  rewrite concat_singletons in Hlog.
  rewrite for_each_results.
  2: { rewrite Hres. apply Forall_fmap, Forall_forall. intros i Hi. cbn.
       apply elem_of_range in Hi.
       destruct (fetch_once env base_url dir_name i w) as [data|e'] eqn:Hi'; [done |].
       by rewrite (Hbefore i e' Hi Hi'). }
  set (r := (run_tasks (download_body env dir_name) (range 1 k) w1).2) in *.
  assert (forall i, k <= i -> calls r !! item_url base_url i = calls w !! item_url base_url i)
    as Hlater.
  { intros i Hi. rewrite Hrest; [done |].
    intros j Hj Heq. apply elem_of_range in Hj. apply item_url_inj in Heq; lia. }
  cbn [for_each]. unfold mbind, M_bind, bind. rewrite download_body_run. cbn zeta.
  assert (attempt_at env (item_url base_url k) (dir_name, item_name k) r 0 = Raise e) as ->.
  { rewrite <- Hfails. apply attempt_at_ext. unfold sent. by rewrite Hlater by lia. }
  rewrite Hother. eexists. split; [reflexivity |]. cbn [log calls ticks after_request].
  split; [| split; [| done]].
  - rewrite Hlog, (range_split 1 k (k + 1)) by lia. rewrite (range_cons k (k + 1)) by lia.
    rewrite (range_nil (k + 1)) by lia. by rewrite map_app, app_assoc.
  - intros i Hi. rewrite lookup_insert_ne; [apply Hlater; lia |].
    intros Heq. apply item_url_inj in Heq; lia.
Qed.

Lemma baseline_download_stops_witness :
  exists w',
    Baseline.download_pokemon Demo.disk_full_env 3 "pokemon_dataset" Demo.empty_world
    = (Raise (Exn OSError "No space left on device"), w')
    /\ log w' = [EvGet (item_url base_url 1) None].
Proof.
  destruct (baseline_download_stops Demo.disk_full_env "pokemon_dataset" 3 Demo.empty_world 1
              (Exn OSError "No space left on device"))
    as (w' & Hrun & Hlog & _).
  - reflexivity.
  - lia.
  - intros i e' Hi. lia.
  - reflexivity.
  - reflexivity.
  - exists w'. split; [exact Hrun | exact Hlog].
Defined.

(** ** The phases of the three versions on concrete worlds *)

Lemma flaky_requests_only dir_name : requests_only Demo.flaky_env dir_name.
Proof.
  split; [| done]. intros url k e. unfold Demo.flaky_env, Demo.flaky_http. cbn [http].
  destruct (endswith url "003.png"); [by intros [= <-] |].
  by destruct (endswith url "002.png" && (k =? 0)%nat).
Qed.



Lemma main_end_to_end_witness :
  exists w',
    main Demo.flaky_env (H := Demo.toy_PIL) Demo.empty_world
    = (Ok (Demo.ticking 5 - Demo.ticking 0)%Q, w')
    /\ fs w' !! ("pokemon_dataset", item_name 2) = Some Demo.png
    /\ fs w' !! ("pokemon_processed", item_name 2) = Some (rev Demo.png)
    /\ fs w' !! ("pokemon_dataset", item_name 3) = None.
Proof.
  destruct (main_end_to_end Demo.flaky_env (H := Demo.toy_PIL) Demo.empty_world)
    as (w' & Hrun & _ & Hfetched & Hfailed).
  - apply flaky_requests_only.
  - reflexivity.
  - reflexivity.
  - reflexivity.
  - reflexivity.
  - reflexivity.
  - exists w'. split; [exact Hrun |].
    destruct (Hfetched 2 Demo.png) as [Hfile Hout]; [lia | vm_compute; reflexivity |].
    split; [exact Hfile |]. split.
    + apply Hout; [reflexivity | vm_compute; reflexivity | reflexivity].
    + rewrite (Hfailed 3 (Exn ConnectionError "Connection refused"));
        [| lia | vm_compute; reflexivity].
      vm_compute. reflexivity.
Defined.


Lemma optimizado1_download_as_sequential_witness :
  fs (Optimizado1.download_pokemon Demo.flaky_env 3 "pokemon_dataset" 40 Demo.empty_world).2
  = fs (Baseline.download_pokemon Demo.flaky_env 3 "pokemon_dataset" Demo.empty_world).2.
Proof.
  refine (proj1 (proj2 (optimizado1_download_as_sequential Demo.flaky_env "pokemon_dataset" 3 40
                          Demo.empty_world _ _))).
  - done.
  - apply flaky_requests_only.
Defined.


Lemma optimizado1_process_as_sequential_witness :
  (Optimizado1.process_pokemon Demo.flaky_env (H := Demo.toy_PIL) "pokemon_dataset"
     "pokemon_processed" 8 Demo.dataset_world).2
  = (Baseline.process_pokemon Demo.flaky_env (H := Demo.toy_PIL) "pokemon_dataset"
       "pokemon_processed" Demo.dataset_world).2.
Proof.
  refine (proj1 (proj2 (optimizado1_process_as_sequential Demo.flaky_env (H := Demo.toy_PIL)
                          "pokemon_dataset" "pokemon_processed" 8 Demo.dataset_world _))).
  done.
Defined.

Lemma item_name_round_trip_witness :
  digits_value (format_03d 7) = 7%N /\ String.length (format_03d 7) = 3%nat.
Proof.
  destruct (item_name_round_trip 7 ltac:(done)) as (Hvalue & _ & Hshort & _).
  split; [exact Hvalue | apply Hshort; done].
Defined.

Lemma images_in_id_order_witness :
  sorted (map item_name [3; 1; 2]) = map item_name (range 1 (3 + 1)).
Proof.
  refine (proj1 (images_in_id_order 3 [3; 1; 2] _ _)).
  - done.
  - change (range 1 (3 + 1)) with [1; 2; 3].
    apply Permutation_sym, perm_trans with [1; 3; 2]; [apply perm_skip, perm_swap | apply perm_swap].
Defined.

Lemma optimizado1_script_as_sequential_witness :
  fs (Optimizado1.script Demo.flaky_env (H := Demo.toy_PIL) Demo.empty_world).2
  = fs (pokemon_script Demo.flaky_env (H := Demo.toy_PIL) Demo.empty_world).2.
Proof.
  refine (proj1 (proj2 (optimizado1_script_as_sequential Demo.flaky_env (H := Demo.toy_PIL)
                          Demo.empty_world _))).
  apply flaky_requests_only.
Defined.

(** ** The chunked search *)

Section ParallelSearchProperties.
Import ParallelSearch.

Example py_slice_middle : py_slice [10; 20; 30; 40; 50] 1 3 = [20; 30].
Proof. reflexivity. Qed.
Example py_slice_beyond : py_slice [10; 20; 30] 2 7 = [30].
Proof. reflexivity. Qed.
Example py_slice_negative : py_slice [10; 20; 30; 40] (-3) (-1) = [20; 30].
Proof. reflexivity. Qed.
Example parallel_search_three_cores :
  parallel_search [2; 0]%nat [5; 8; 13; 21; 34; 55; 89] 34 3 = Ok (Found 2).
Proof. reflexivity. Qed.
Example parallel_search_more_cores_than_data :
  parallel_search [] [5; 8] 8 4 = Ok (Found 3).
Proof. reflexivity. Qed.

Lemma py_slice_inside {A} (l : list A) a b :
  0 <= a <= b -> b <= Z.of_nat (length l) ->
  py_slice l a b = take (Z.to_nat (b - a)) (drop (Z.to_nat a) l).
Proof.
  intros Hab Hb. unfold py_slice, slice_bound.
  destruct (Z.ltb_spec a 0), (Z.ltb_spec b 0); try lia.
  by rewrite !Z.min_l by lia.
Qed.

Lemma search_in_chunk_id chunk target chunk_id :
  (search_in_chunk chunk target chunk_id).2 = chunk_id.
Proof.
  induction chunk as [|value rest IH]; cbn; [done |]. by destruct (value =? target).
Qed.

Lemma search_in_chunk_found chunk target chunk_id :
  (search_in_chunk chunk target chunk_id).1 = true <-> target ∈ chunk.
Proof.
  induction chunk as [|value rest IH]; cbn.
  - split; [done |]. intros Hin. by apply elem_of_nil in Hin.
  - rewrite elem_of_cons. destruct (Z.eqb_spec value target) as [-> | Hne]; cbn.
    + split; [by left | done].
    + rewrite IH. split; [by right |]. intros [-> | Hin]; done.
Qed.

(** X1. [search_in_chunk] answers [True] exactly when the target is one of
    the values of the chunk, and it always answers with the id it was given,
    also for an empty chunk. *)
Theorem search_in_chunk_spec chunk target chunk_id :
  search_in_chunk chunk target chunk_id = (bool_decide (target ∈ chunk), chunk_id).
Proof.
  pose proof (search_in_chunk_id chunk target chunk_id) as Hid.
  pose proof (search_in_chunk_found chunk target chunk_id) as Hfound.
  destruct (search_in_chunk chunk target chunk_id) as [found id]. cbn in *. subst id.
  f_equal. destruct found.
  - symmetry. apply bool_decide_eq_true. by apply Hfound.
  - symmetry. apply bool_decide_eq_false. intros Hin. apply Hfound in Hin. done.
Qed.

(** The chunk that the loop cuts for index [i]. *)
Lemma cut_chunks_map data target chunk_size n_cores indices chunks :
  cut_chunks data target chunk_size n_cores indices chunks =
  (chunks ++ map (fun i =>
                    (py_slice data (i * chunk_size)
                       (if i <? n_cores - 1 then i * chunk_size + chunk_size
                        else Z.of_nat (length data)),
                     target, i)) indices)%list.
Proof.
  revert chunks. induction indices as [|i rest IH]; intros chunks; cbn [cut_chunks map].
  - by rewrite app_nil_r.
  - by rewrite IH, <- app_assoc.
Qed.

Lemma concat_takes {A} (l : list A) (s k : nat) :
  concat (map (fun i : nat => take s (drop (i * s) l)) (seq 0 k)) = take (k * s) l.
Proof.
  induction k as [|k IH]; [done |].
  rewrite seq_S, map_app, concat_app, IH. cbn [map concat]. rewrite app_nil_r.
  rewrite take_take_drop. f_equal. lia.
Qed.

Lemma range_seq (n : nat) : range 0 (Z.of_nat n) = map Z.of_nat (seq 0 n).
Proof.
  unfold range. replace (Z.to_nat (Z.of_nat n - 0)) with n by lia.
  apply map_ext. intros k. lia.
Qed.

Lemma range_snoc lo hi : lo <= hi -> range lo (hi + 1) = (range lo hi ++ [hi])%list.
Proof.
  intros Hle. unfold range.
  replace (Z.to_nat (hi + 1 - lo)) with (S (Z.to_nat (hi - lo))) by lia.
  rewrite seq_S, map_app. cbn [map]. do 2 f_equal. lia.
Qed.

Lemma map_const {A B} (b : B) (l : list A) : map (fun _ => b) l = replicate (length l) b.
Proof. induction l; cbn; [done | by f_equal]. Qed.

(** The data of the chunks of [data] for [n_cores >= 1] cores. *)
Lemma chunk_data (data : list Z) n_cores :
  1 <= n_cores ->
  let len := Z.of_nat (length data) in
  let s := len / n_cores in
  map (fun i => py_slice data (i * s) (if i <? n_cores - 1 then i * s + s else len))
    (range 0 n_cores)
  = (map (fun i : nat => take (Z.to_nat s) (drop (i * Z.to_nat s) data))
       (seq 0 (Z.to_nat (n_cores - 1)))
     ++ [drop (Z.to_nat (n_cores - 1) * Z.to_nat s) data])%list.
Proof.
  intros Hn len s.
  assert (0 <= s) as Hs by (apply Z.div_pos; lia).
  assert (n_cores * s <= len) as Hfit by (apply Z.mul_div_le; lia).
  assert (range 0 n_cores = (range 0 (n_cores - 1) ++ [n_cores - 1])%list) as ->.
  { rewrite <- range_snoc by lia. f_equal. lia. }
  rewrite map_app. cbn [map]. f_equal.
  - assert (range 0 (n_cores - 1) = map Z.of_nat (seq 0 (Z.to_nat (n_cores - 1)))) as ->.
    { rewrite <- range_seq. f_equal. lia. }
    rewrite map_map. apply map_ext_in. intros i Hi.
    apply in_seq in Hi. destruct (Z.ltb_spec (Z.of_nat i) (n_cores - 1)); [| lia].
    rewrite py_slice_inside by nia. f_equal; [lia |]. f_equal.
    by rewrite Z2Nat.inj_mul, Nat2Z.id by lia.
  - destruct (Z.ltb_spec (n_cores - 1) (n_cores - 1)); [lia |].
    rewrite py_slice_inside by (fold len; nia). fold len.
    rewrite take_ge by (rewrite length_drop; lia).
    f_equal. by rewrite Z2Nat.inj_mul by lia.
Qed.

(** The loop of [parallel_search] cuts the data into [n_cores] chunks, numbered
    [0 .. n_cores - 1] in order, each carrying the target; their data, put
    end to end, is the data, and every chunk but the last holds
    [len(data) // n_cores] values. *)
Lemma cut_chunks_facts (data : list Z) target n_cores :
  1 <= n_cores ->
  let chunk_size := Z.of_nat (length data) / n_cores in
  let chunks := cut_chunks data target chunk_size n_cores (range 0 n_cores) [] in
  concat (map (fun c => c.1.1) chunks) = data
  /\ map (fun c => c.2) chunks = range 0 n_cores
  /\ map (fun c => c.1.2) chunks = replicate (Z.to_nat n_cores) target
  /\ (forall (i : nat) c,
        chunks !! i = Some c -> Z.of_nat i < n_cores - 1 ->
        Z.of_nat (length c.1.1) = chunk_size).
Proof.
  intros Hn chunk_size chunks.
  assert (0 <= chunk_size) as Hs by (apply Z.div_pos; lia).
  assert (n_cores * chunk_size <= Z.of_nat (length data)) as Hfit by (apply Z.mul_div_le; lia).
  pose proof (chunk_data data n_cores Hn) as Hdata. cbn zeta in Hdata. fold chunk_size in Hdata.
  unfold chunks. rewrite cut_chunks_map. cbn [app]. rewrite !map_map. cbn [fst snd].
  split; [| split; [| split]].
  - rewrite Hdata, concat_app, concat_takes. cbn [concat]. rewrite app_nil_r.
    apply take_drop.
  - apply map_id.
  - rewrite map_const, length_range. f_equal. lia.
  - intros i c Hc Hi. rewrite list_lookup_fmap in Hc.
    destruct (range 0 n_cores !! i) as [j|] eqn:Hj; [| done]. injection Hc as <-. cbn [fst].
    unfold range in Hj. rewrite list_lookup_fmap in Hj.
    destruct (seq 0 (Z.to_nat (n_cores - 0)) !! i) as [k|] eqn:Hk; [| done].
    apply lookup_seq in Hk as [-> _]. injection Hj as <-.
    change (0 + i)%nat with i. rewrite !Z.add_0_l.
    destruct (Z.ltb_spec (Z.of_nat i) (n_cores - 1)); [| lia].
    clearbody chunk_size.
    assert (Z.of_nat i * chunk_size + chunk_size <= n_cores * chunk_size) by nia.
    assert (0 <= Z.of_nat i * chunk_size) by nia.
    rewrite py_slice_inside by lia. rewrite length_take, length_drop. lia.
Qed.


(** X2. For every number of cores [n_cores >= 1] the loop of
    [parallel_search] cuts the data into exactly [n_cores] chunks, numbered
    [0 .. n_cores - 1] in order, each carrying the target; their data, put
    end to end, is the data, and every chunk but the last holds
    [len(data) // n_cores] values (none at all when there are more cores
    than values: the last chunk then holds everything). *)
Theorem cut_chunks_partition (data : list Z) target n_cores :
  1 <= n_cores ->
  let chunk_size := Z.of_nat (length data) / n_cores in
  let chunks := cut_chunks data target chunk_size n_cores (range 0 n_cores) [] in
  concat (map (fun c => c.1.1) chunks) = data
  /\ map (fun c => c.2) chunks = range 0 n_cores
  /\ map (fun c => c.1.2) chunks = replicate (Z.to_nat n_cores) target
  /\ (forall (i : nat) c,
        chunks !! i = Some c -> Z.of_nat i < n_cores - 1 ->
        Z.of_nat (length c.1.1) = chunk_size).
Proof. apply cut_chunks_facts. Qed.

Lemma elem_of_concat {A} (x : A) (ls : list (list A)) :
  x ∈ concat ls <-> exists l, x ∈ l /\ l ∈ ls.
Proof.
  rewrite list_elem_of_In, in_concat. split.
  - intros (l & Hl & Hx). exists l. by rewrite !list_elem_of_In.
  - intros (l & Hx & Hl). exists l. by rewrite <- !list_elem_of_In.
Qed.

Lemma report_found results chunk_id :
  report results = Found chunk_id -> (true, chunk_id) ∈ results.
Proof.
  induction results as [|[found id] rest IH]; cbn; [done |].
  destruct found.
  - intros [= ->]. left.
  - intros Hrest. right. by apply IH.
Qed.

Lemma report_not_found results :
  report results = NotFound -> forall chunk_id, (true, chunk_id) ∉ results.
Proof.
  induction results as [|[found id] rest IH]; cbn; intros Hrep chunk_id Hin.
  - by apply elem_of_nil in Hin.
  - destruct found; [done |].
    apply elem_of_cons in Hin as [[=] | Hin]. by eapply IH.
Qed.

Lemma worker_found chunks target chunk_id :
  Forall (fun c : list Z * Z * Z => c.1.2 = target) chunks ->
  (true, chunk_id) ∈ map worker chunks <->
  exists chunk, (chunk, target, chunk_id) ∈ chunks /\ target ∈ chunk.
Proof.
  intros Htarget. rewrite list_elem_of_fmap. split.
  - intros ([[chunk t] id] & Hres & Hin).
    rewrite Forall_forall in Htarget. pose proof (Htarget _ Hin) as Ht. cbn in Ht. subst t.
    unfold worker in Hres.
    pose proof (search_in_chunk_id chunk target id) as Hid.
    pose proof (search_in_chunk_found chunk target id) as Hfound.
    rewrite <- Hres in Hid, Hfound. cbn in Hid, Hfound. subst id.
    exists chunk. split; [done | by apply Hfound].
  - intros (chunk & Hin & Htarget'). exists (chunk, target, chunk_id). split; [| done].
    unfold worker.
    pose proof (search_in_chunk_id chunk target chunk_id) as Hid.
    pose proof (proj2 (search_in_chunk_found chunk target chunk_id) Htarget') as Hfound.
    destruct (search_in_chunk chunk target chunk_id) as [found id]. cbn in *. by subst.
Qed.

Lemma parallel_search_run arrival (data : list Z) target n_cores :
  1 <= n_cores ->
  let chunk_size := Z.of_nat (length data) / n_cores in
  let chunks := cut_chunks data target chunk_size n_cores (range 0 n_cores) [] in
  exists results,
    parallel_search arrival data target n_cores = Ok (report results)
    /\ results ≡ₚ map worker chunks.
Proof.
  intros Hn chunk_size chunks. unfold parallel_search, floordiv.
  destruct (Z.eqb_spec n_cores 0); [lia |]. cbn. fold chunk_size chunks.
  eexists. split; [reflexivity |].
  apply as_completed_Permutation.
  unfold chunks. rewrite cut_chunks_map. cbn [app]. rewrite length_map, length_range. lia.
Qed.

(** Where the chunks of [data] lie. *)
Lemma elem_of_cut_chunks (data : list Z) target n_cores chunk t chunk_id :
  let chunk_size := Z.of_nat (length data) / n_cores in
  (chunk, t, chunk_id) ∈ cut_chunks data target chunk_size n_cores (range 0 n_cores) [] <->
  0 <= chunk_id < n_cores /\ t = target
  /\ chunk = py_slice data (chunk_id * chunk_size)
               (if chunk_id <? n_cores - 1 then chunk_id * chunk_size + chunk_size
                else Z.of_nat (length data)).
Proof.
  intros chunk_size. rewrite cut_chunks_map. cbn [app]. rewrite list_elem_of_fmap. split.
  - intros (i & [= -> -> ->] & Hi). apply elem_of_range in Hi. split; [lia | done].
  - intros (Hid & -> & ->). exists chunk_id. split; [done |]. apply elem_of_range. lia.
Qed.

(** X3. With [n_cores >= 1], and when the queue hands over the result of
    every worker, in whatever order: [parallel_search] reports the target as
    found exactly when it is a value of the data, and the chunk it names is
    one of the chunks [0 .. n_cores - 1] and does hold the target. *)
Theorem parallel_search_correct arrival (data : list Z) target n_cores :
  1 <= n_cores ->
  let chunk_size := Z.of_nat (length data) / n_cores in
  exists r,
    parallel_search arrival data target n_cores = Ok r
    /\ ((exists chunk_id, r = Found chunk_id) <-> target ∈ data)
    /\ (forall chunk_id,
          r = Found chunk_id ->
          0 <= chunk_id < n_cores
          /\ target ∈ py_slice data (chunk_id * chunk_size)
                        (if chunk_id <? n_cores - 1 then chunk_id * chunk_size + chunk_size
                         else Z.of_nat (length data))).
Proof.
  intros Hn chunk_size.
  destruct (parallel_search_run arrival data target n_cores Hn) as (results & Hrun & Hperm).
  destruct (cut_chunks_facts data target n_cores Hn) as (Hconcat & _ & Htargets & _).
  fold chunk_size in Hperm, Hconcat, Htargets.
  set (chunks := cut_chunks data target chunk_size n_cores (range 0 n_cores) []) in *.
  assert (Forall (fun c : list Z * Z * Z => c.1.2 = target) chunks) as Hall.
  { apply Forall_forall. intros c Hc.
    assert (c.1.2 ∈ map (fun c : list Z * Z * Z => c.1.2) chunks) as Hin
        by (apply list_elem_of_fmap; eauto).
    rewrite Htargets in Hin. by apply elem_of_replicate in Hin as [-> _]. }
  exists (report results). split; [done |]. split; [split |].
  - intros [chunk_id Hfound]. apply report_found in Hfound. rewrite Hperm in Hfound.
    apply (worker_found chunks target chunk_id Hall) in Hfound as (chunk & Hin & Htarget).
    rewrite <- Hconcat. apply elem_of_concat. exists chunk. split; [done |].
    apply list_elem_of_fmap. by exists (chunk, target, chunk_id).
  - intros Hin. rewrite <- Hconcat in Hin.
    apply elem_of_concat in Hin as (chunk & Htarget & Hchunk).
    apply list_elem_of_fmap in Hchunk as ([[chunk' t] chunk_id] & -> & Hc). cbn [fst] in Htarget.
    assert (t = target) as -> by (rewrite Forall_forall in Hall; apply (Hall _ Hc)).
    assert ((true, chunk_id) ∈ results) as Hres.
    { rewrite Hperm. apply (worker_found chunks target chunk_id Hall). eauto. }
    destruct (report results) as [id|] eqn:Hrep; [by exists id |].
    exfalso. by eapply report_not_found.
  - intros chunk_id Hfound. apply report_found in Hfound. rewrite Hperm in Hfound.
    apply (worker_found chunks target chunk_id Hall) in Hfound as (chunk & Hin & Htarget).
    apply elem_of_cut_chunks in Hin as (Hid & _ & ->). done.
Qed.

(** X4. Without a core, [parallel_search] divides by zero before it starts
    any process; with a negative number of cores it starts none and reports
    the target as not found, whatever the data holds. *)
Theorem parallel_search_no_core arrival (data : list Z) target n_cores :
  n_cores <= 0 ->
  parallel_search arrival data target n_cores =
  if n_cores =? 0
  then Raise (Exn ZeroDivisionError "integer division or modulo by zero")
  else Ok NotFound.
Proof.
  intros Hn. unfold parallel_search, floordiv.
  destruct (Z.eqb_spec n_cores 0); [done |]. cbn.
  by rewrite range_nil by lia.
Qed.

End ParallelSearchProperties.

(** ** The chunked search on concrete data *)

Lemma cut_chunks_partition_witness :
  concat (map (fun c : list Z * Z * Z => c.1.1)
            (ParallelSearch.cut_chunks [5; 8; 13; 21; 34; 55; 89] 34 2 3 (range 0 3) []))
  = [5; 8; 13; 21; 34; 55; 89].
Proof.
  exact (proj1 (cut_chunks_partition [5; 8; 13; 21; 34; 55; 89] 34 3 ltac:(done))).
Defined.

Lemma parallel_search_correct_witness :
  exists r,
    ParallelSearch.parallel_search [2; 0]%nat [5; 8; 13; 21; 34; 55; 89] 34 3 = Ok r
    /\ ((exists chunk_id, r = ParallelSearch.Found chunk_id) <-> 34 ∈ [5; 8; 13; 21; 34; 55; 89]).
Proof.
  destruct (parallel_search_correct [2; 0]%nat [5; 8; 13; 21; 34; 55; 89] 34 3 ltac:(done))
    as (r & Hrun & Hfound & _).
  by exists r.
Defined.

Lemma parallel_search_no_core_witness :
  ParallelSearch.parallel_search [] [5; 8; 13] 8 (-2) = Ok ParallelSearch.NotFound.
Proof.
  exact (parallel_search_no_core [] [5; 8; 13] 8 (-2) ltac:(done)).
Defined.
